(** * Shallow embedding of src/server/controllers/aiController.js

    The controller is JavaScript.  Its data are JavaScript values, so the
    development starts with a model of the values it manipulates (those a
    JSON document or a provider response can hold), of property access with
    and without optional chaining, of truthiness, [typeof], [String(..)],
    [JSON.parse] and [JSON.stringify].  The helpers [getGeminiText] and
    [tryParseJSON] and the two request handlers follow, over a small state
    and exception monad whose state is the question collection and a trace
    of the external calls. *)

From Stdlib Require Import ZArith NArith String Ascii.
From stdpp Require Import base gmap list.

Set Warnings "-register-all".

(** ** JavaScript strings and values *)

(** A JavaScript string is a sequence of UTF-16 code units. *)
Abbreviation jsstr := (list N).

(** ASCII literal to code units, to write string constants. *)
Definition u (s : string) : jsstr :=
  map (fun a => N.of_nat (nat_of_ascii a)) (list_ascii_of_string s).

Definition NL : jsstr := [10%N].

(** Values.  A number is kept as the exact decimal
    [(-1)^neg * m * 10^e] of its JSON literal; the rounding of that decimal
    to a binary64 double is not modelled.  Objects are association lists
    in property-creation order, each key at most once.  Functions, symbols
    and prototypes are not modelled: the keys the controller reads
    ([candidates], [content], [parts], [text], [explanation], [0], the
    request fields) are not inherited by plain objects, arrays or
    primitives. *)
Inductive jsval : Type :=
| JUndef
| JNull
| JBool (b : bool)
| JNum (neg : bool) (m : N) (e : Z)
| JStr (s : jsstr)
| JArr (l : list jsval)
| JObj (l : list (jsstr * jsval)).

(** Outcome of evaluating an expression: a value, or a thrown [Error]
    whose [message] is the given string. *)
Inductive outcome (A : Type) : Type :=
| Ok (a : A)
| Throw (msg : jsstr).
Arguments Ok {A} a.
Arguments Throw {A} msg.

Definition obind {A B} (m : outcome A) (f : A -> outcome B) : outcome B :=
  match m with Ok a => f a | Throw e => Throw e end.

(** ToBoolean. *)
Definition truthy (v : jsval) : bool :=
  match v with
  | JUndef | JNull => false
  | JBool b => b
  | JNum _ m _ => negb (m =? 0)%N
  | JStr s => negb (bool_decide (s = []))
  | JArr _ | JObj _ => true
  end.

(** [typeof v === "object"]: true for [null] as well. *)
Definition typeof_object (v : jsval) : bool :=
  match v with JNull | JArr _ | JObj _ => true | _ => false end.

(** ** Decimal digits *)

Definition digit_char (d : N) : N := (48 + d)%N.

Fixpoint N_digits_fuel (fuel : nat) (n : N) (acc : jsstr) : jsstr :=
  match fuel with
  | O => acc
  | S f =>
      let acc' := digit_char (n mod 10) :: acc in
      if (n <? 10)%N then acc' else N_digits_fuel f (n / 10)%N acc'
  end.

(** Decimal representation of a natural number, most significant first. *)
Definition N_to_dec (n : N) : jsstr := N_digits_fuel (S (N.size_nat n)) n [].

(** [CanonicalNumericIndexString] restricted to array indices:
    the key is the decimal form of an integer below [2^32 - 1]. *)
Fixpoint dec_value (s : jsstr) (acc : N) : option N :=
  match s with
  | [] => Some acc
  | c :: r =>
      if ((48 <=? c) && (c <=? 57))%N then dec_value r (acc * 10 + (c - 48))%N
      else None
  end.

Definition array_index (k : jsstr) : option N :=
  match k with
  | [] => None
  | _ =>
      match dec_value k 0 with
      | Some n =>
          if bool_decide (N_to_dec n = k) && (n <? 4294967295)%N
          then Some n else None
      | None => None
      end
  end.

Definition js_num_of_nat (n : nat) : jsval := JNum false (N.of_nat n) 0.

(** ** Property access *)

Definition type_error_read (k : jsstr) (base : jsstr) : jsstr :=
  u "Cannot read properties of " ++ base ++ u " (reading '" ++ k ++ u "')".

Fixpoint assoc_lookup (k : jsstr) (l : list (jsstr * jsval)) : jsval :=
  match l with
  | [] => JUndef
  | (k', v) :: r => if bool_decide (k = k') then v else assoc_lookup k r
  end.

(** [v.k] (or [v[k]] with a string key).  Reading from [undefined] or
    [null] throws a [TypeError]. *)
Definition get (v : jsval) (k : jsstr) : outcome jsval :=
  match v with
  | JUndef => Throw (type_error_read k (u "undefined"))
  | JNull => Throw (type_error_read k (u "null"))
  | JBool _ | JNum _ _ _ => Ok JUndef
  | JStr s =>
      if bool_decide (k = u "length") then Ok (js_num_of_nat (length s)) else
      match array_index k with
      | Some i => Ok (match s !! N.to_nat i with Some c => JStr [c] | None => JUndef end)
      | None => Ok JUndef
      end
  | JArr l =>
      if bool_decide (k = u "length") then Ok (js_num_of_nat (length l)) else
      match array_index k with
      | Some i => Ok (match l !! N.to_nat i with Some x => x | None => JUndef end)
      | None => Ok JUndef
      end
  | JObj kvs => Ok (assoc_lookup k kvs)
  end.

(** [v?.k]: short-circuits to [undefined] on [undefined] or [null].  A
    chain [a?.b?.c] is the composition, as [undefined?.c] is again
    [undefined]. *)
Definition optget (v : jsval) (k : jsstr) : outcome jsval :=
  match v with
  | JUndef | JNull => Ok JUndef
  | _ => get v k
  end.

(** ** getGeminiText *)

(** <<
    function getGeminiText(response) {
      if (response && response.candidates?.[0]?.content?.parts?.[0]?.text) {
        return response.candidates[0].content.parts[0].text;
      }
      return null;
    }
>> *)
Definition getGeminiText (response : jsval) : outcome jsval :=
  if truthy response then
    obind (get response (u "candidates")) (fun c =>
    obind (optget c (u "0")) (fun c0 =>
    obind (optget c0 (u "content")) (fun ct =>
    obind (optget ct (u "parts")) (fun ps =>
    obind (optget ps (u "0")) (fun p0 =>
    obind (optget p0 (u "text")) (fun t =>
    if truthy t then
      obind (get response (u "candidates")) (fun c' =>
      obind (get c' (u "0")) (fun c0' =>
      obind (get c0' (u "content")) (fun ct' =>
      obind (get ct' (u "parts")) (fun ps' =>
      obind (get ps' (u "0")) (fun p0' =>
      get p0' (u "text"))))))
    else Ok JNull))))))
  else Ok JNull.

(** The value at [candidates[0].content.parts[0].text], if every step of
    the path exists (is neither [undefined] nor [null]). *)
Definition text_path (response : jsval) : option jsval :=
  match obind (optget response (u "candidates")) (fun c =>
        obind (optget c (u "0")) (fun c0 =>
        obind (optget c0 (u "content")) (fun ct =>
        obind (optget ct (u "parts")) (fun ps =>
        obind (optget ps (u "0")) (fun p0 =>
        optget p0 (u "text")))))) with
  | Ok JUndef => None
  | Ok v => Some v
  | Throw _ => None
  end.

(** ** Number::toString *)

(** Strip trailing decimal zeros of the mantissa: [m * 10^e] with [m]
    not divisible by 10 (for [m <> 0]). *)
Fixpoint normalize_fuel (fuel : nat) (m : N) (e : Z) : N * Z :=
  match fuel with
  | O => (m, e)
  | S f =>
      if ((m mod 10 =? 0) && negb (m =? 0))%N
      then normalize_fuel f (m / 10)%N (e + 1)%Z else (m, e)
  end.

Definition normalize (m : N) (e : Z) : N * Z := normalize_fuel (N.size_nat m) m e.

Definition zeros (n : nat) : jsstr := repeat 48%N n.

(** Number::toString(x) for a finite x, radix 10 (ECMA-262 6.1.6.1.20):
    [ds] the significant digits, [k] their count, [n] the decimal point
    position. *)
Definition num_to_string (neg : bool) (m : N) (e : Z) : jsstr :=
  if (m =? 0)%N then u "0" else
  let '(s, e') := normalize m e in
  let ds := N_to_dec s in
  let k := Z.of_nat (length ds) in
  let n := (k + e')%Z in
  let body :=
    if ((k <=? n) && (n <=? 21))%Z then ds ++ zeros (Z.to_nat (n - k))
    else if ((0 <? n) && (n <=? 21))%Z then
      take (Z.to_nat n) ds ++ u "." ++ drop (Z.to_nat n) ds
    else if ((-6 <? n) && (n <=? 0))%Z then u "0." ++ zeros (Z.to_nat (- n)) ++ ds
    else
      let ex := (n - 1)%Z in
      let mant := match ds with
                  | d :: [] => [d]
                  | d :: rest => d :: u "." ++ rest
                  | [] => []
                  end in
      mant ++ u "e" ++ (if (ex <? 0)%Z then u "-" else u "+") ++ N_to_dec (Z.abs_N ex) in
  (if neg then u "-" else []) ++ body.

(** ** ToString, as used by template literals *)

Fixpoint join (sep : jsstr) (l : list jsstr) : jsstr :=
  match l with
  | [] => []
  | [x] => x
  | x :: r => x ++ sep ++ join sep r
  end.

(** [String(v)]; an array is joined with commas, its [undefined] and
    [null] elements giving the empty string. *)
Fixpoint to_js_string (v : jsval) : jsstr :=
  match v with
  | JUndef => u "undefined"
  | JNull => u "null"
  | JBool true => u "true"
  | JBool false => u "false"
  | JNum neg m e => num_to_string neg m e
  | JStr s => s
  | JArr l =>
      join (u ",") (map (fun x => match x with
                                  | JUndef | JNull => []
                                  | _ => to_js_string x
                                  end) l)
  | JObj _ => u "[object Object]"
  end.

(** ** JSON.stringify *)

Definition hex_digit (d : N) : N := if (d <? 10)%N then (48 + d)%N else (87 + d)%N.

Definition hex4 (c : N) : jsstr :=
  [hex_digit ((c / 4096) mod 16); hex_digit ((c / 256) mod 16);
   hex_digit ((c / 16) mod 16); hex_digit (c mod 16)]%N.

Definition unicode_escape (c : N) : jsstr := u "\u" ++ hex4 c.

Definition is_lead_surrogate (c : N) : bool := ((55296 <=? c) && (c <=? 56319))%N.
Definition is_trail_surrogate (c : N) : bool := ((56320 <=? c) && (c <=? 57343))%N.

(** QuoteJSONString, without the enclosing quotes. *)
Fixpoint quote_units (s : jsstr) : jsstr :=
  match s with
  | [] => []
  | c :: r =>
      if (c =? 8)%N then u "\b" ++ quote_units r
      else if (c =? 9)%N then u "\t" ++ quote_units r
      else if (c =? 10)%N then u "\n" ++ quote_units r
      else if (c =? 12)%N then u "\f" ++ quote_units r
      else if (c =? 13)%N then u "\r" ++ quote_units r
      else if (c =? 34)%N then [92; 34]%N ++ quote_units r
      else if (c =? 92)%N then u "\\" ++ quote_units r
      else if (c <? 32)%N then unicode_escape c ++ quote_units r
      else if is_lead_surrogate c then
        match r with
        | c2 :: r' =>
            if is_trail_surrogate c2 then c :: c2 :: quote_units r'
            else unicode_escape c ++ quote_units r
        | [] => unicode_escape c
        end
      else if is_trail_surrogate c then unicode_escape c ++ quote_units r
      else c :: quote_units r
  end.

Definition quote (s : jsstr) : jsstr := [34%N] ++ quote_units s ++ [34%N].

(** Property order of an ordinary object: array indices ascending, then
    the other keys in creation order. *)
Fixpoint insert_by_index {A} (i : N) (x : A) (l : list (N * A)) : list (N * A) :=
  match l with
  | [] => [(i, x)]
  | (j, y) :: r => if (i <? j)%N then (i, x) :: (j, y) :: r else (j, y) :: insert_by_index i x r
  end.

Fixpoint index_props {A} (kvs : list (jsstr * A)) : list (N * (jsstr * A)) :=
  match kvs with
  | [] => []
  | (k, v) :: r =>
      match array_index k with
      | Some i => insert_by_index i (k, v) (index_props r)
      | None => index_props r
      end
  end.

Definition own_props {A} (kvs : list (jsstr * A)) : list (jsstr * A) :=
  map snd (index_props kvs) ++ filter (fun kv => array_index kv.1 = None) kvs.

(** SerializeJSONProperty; [None] is [undefined]. *)
Fixpoint stringify (v : jsval) : option jsstr :=
  match v with
  | JUndef => None
  | JNull => Some (u "null")
  | JBool true => Some (u "true")
  | JBool false => Some (u "false")
  | JNum neg m e => Some (num_to_string neg m e)
  | JStr s => Some (quote s)
  | JArr l =>
      Some (u "[" ++ join (u ",") (map (fun x => match stringify x with
                                                  | Some t => t
                                                  | None => u "null"
                                                  end) l) ++ u "]")
  | JObj kvs =>
      let sers := map (fun '(k, x) => (k, stringify x)) kvs in
      let parts := omap (fun '(k, o) => match o with
                                        | Some t => Some (quote k ++ u ":" ++ t)
                                        | None => None
                                        end) (own_props sers) in
      Some (u "{" ++ join (u ",") parts ++ u "}")
  end.

Definition JSON_stringify (v : jsval) : jsval :=
  match stringify v with Some t => JStr t | None => JUndef end.

(** ** JSON.parse *)

(** The grammar and the value construction follow ECMA-262 JSON.parse:
    JSON whitespace is tab, line feed, carriage return and space; a
    repeated object key keeps its first position and takes the last
    value.  The [SyntaxError] messages are engine-specific; the ones below
    follow V8's wording in spirit only. *)
Definition json_ws (c : N) : bool := ((c =? 9) || (c =? 10) || (c =? 13) || (c =? 32))%N.

Fixpoint skip_ws (s : jsstr) : jsstr :=
  match s with
  | c :: r => if json_ws c then skip_ws r else s
  | [] => []
  end.

Definition err_at (s : jsstr) : jsstr :=
  match s with
  | [] => u "Unexpected end of JSON input"
  | c :: _ => u "Unexpected token " ++ [c] ++ u " in JSON"
  end.

Abbreviation presult A := (sum jsstr (A * jsstr)).

Definition is_digit (c : N) : bool := ((48 <=? c) && (c <=? 57))%N.

Fixpoint span_digits (s : jsstr) : jsstr * jsstr :=
  match s with
  | c :: r => if is_digit c then let '(d, rest) := span_digits r in (c :: d, rest) else ([], s)
  | [] => ([], [])
  end.

Definition dec_N (ds : jsstr) : N := default 0%N (dec_value ds 0).

(** A number: [-? (0 | [1-9][0-9]* ) (. [0-9]+)? ([eE] [+-]? [0-9]+)?]. *)
Definition parse_number (s : jsstr) : presult jsval :=
  let '(neg, s1) := match s with 45%N :: r => (true, r) | _ => (false, s) end in
  let int_part :=
    match s1 with
    | 48%N :: r => inr ([48%N], r)
    | c :: _ => if is_digit c then inr (span_digits s1) else inl (err_at s1)
    | [] => inl (err_at s1)
    end in
  match int_part with
  | inl e => inl e
  | inr (ids, s2) =>
      let frac :=
        match s2 with
        | 46%N :: r =>
            let '(fds, s3) := span_digits r in
            match fds with [] => inl (err_at s3) | _ => inr (fds, s3) end
        | _ => inr ([], s2)
        end in
      match frac with
      | inl e => inl e
      | inr (fds, s3) =>
          let expo :=
            match s3 with
            | c :: r =>
                if ((c =? 101) || (c =? 69))%N then
                  let '(eneg, r1) := match r with
                                     | 45%N :: r' => (true, r')
                                     | 43%N :: r' => (false, r')
                                     | _ => (false, r)
                                     end in
                  let '(eds, s4) := span_digits r1 in
                  match eds with
                  | [] => inl (err_at s4)
                  | _ => inr ((if eneg then - Z.of_N (dec_N eds) else Z.of_N (dec_N eds))%Z, s4)
                  end
                else inr (0%Z, s3)
            | [] => inr (0%Z, s3)
            end in
          match expo with
          | inl e => inl e
          | inr (ex, s4) =>
              inr (JNum neg (dec_N (ids ++ fds)) (ex - Z.of_nat (length fds))%Z, s4)
          end
      end
  end.

Definition hex_val (c : N) : option N :=
  if is_digit c then Some (c - 48)%N
  else if ((97 <=? c) && (c <=? 102))%N then Some (c - 87)%N
  else if ((65 <=? c) && (c <=? 70))%N then Some (c - 55)%N
  else None.

(** The body of a string literal, after its opening quote. *)
Fixpoint parse_string_body (s : jsstr) (acc : jsstr) : presult jsstr :=
  match s with
  | [] => inl (u "Unterminated string in JSON")
  | c :: r =>
      if (c =? 34)%N then inr (acc, r)
      else if (c =? 92)%N then
        match r with
        | [] => inl (u "Unterminated string in JSON")
        | x :: r2 =>
            if (x =? 34)%N then parse_string_body r2 (acc ++ [34%N])
            else if (x =? 92)%N then parse_string_body r2 (acc ++ [92%N])
            else if (x =? 47)%N then parse_string_body r2 (acc ++ [47%N])
            else if (x =? 98)%N then parse_string_body r2 (acc ++ [8%N])
            else if (x =? 102)%N then parse_string_body r2 (acc ++ [12%N])
            else if (x =? 110)%N then parse_string_body r2 (acc ++ [10%N])
            else if (x =? 114)%N then parse_string_body r2 (acc ++ [13%N])
            else if (x =? 116)%N then parse_string_body r2 (acc ++ [9%N])
            else if (x =? 117)%N then
              match r2 with
              | h1 :: h2 :: h3 :: h4 :: r3 =>
                  match hex_val h1, hex_val h2, hex_val h3, hex_val h4 with
                  | Some a, Some b, Some c', Some d =>
                      parse_string_body r3 (acc ++ [(a * 4096 + b * 256 + c' * 16 + d)%N])
                  | _, _, _, _ => inl (u "Bad Unicode escape in JSON")
                  end
              | _ => inl (u "Bad Unicode escape in JSON")
              end
            else inl (u "Bad escaped character in JSON")
        end
      else if (c <? 32)%N then inl (u "Bad control character in string literal in JSON")
      else parse_string_body r (acc ++ [c])
  end.

Fixpoint expect (lit : jsstr) (s : jsstr) : option jsstr :=
  match lit with
  | [] => Some s
  | c :: l => match s with
              | c' :: r => if (c =? c')%N then expect l r else None
              | [] => None
              end
  end.

(** CreateDataProperty on an object being built. *)
Fixpoint obj_set (kvs : list (jsstr * jsval)) (k : jsstr) (v : jsval) : list (jsstr * jsval) :=
  match kvs with
  | [] => [(k, v)]
  | (k', v') :: r => if bool_decide (k = k') then (k', v) :: r else (k', v') :: obj_set r k v
  end.

(** The elements of an array, after its first element starts; [pv] parses
    one value. *)
Fixpoint parse_elements (pv : jsstr -> presult jsval) (fuel : nat)
    (acc : list jsval) (s : jsstr) : presult jsval :=
  match fuel with
  | O => inl (err_at s)
  | S f =>
      match pv s with
      | inl e => inl e
      | inr (v, r) =>
          match skip_ws r with
          | 44%N :: r' => parse_elements pv f (acc ++ [v]) r'
          | 93%N :: r' => inr (JArr (acc ++ [v]), r')
          | r' => inl (err_at r')
          end
      end
  end.

(** The members of an object, after its first member starts. *)
Fixpoint parse_members (pv : jsstr -> presult jsval) (fuel : nat)
    (acc : list (jsstr * jsval)) (s : jsstr) : presult jsval :=
  match fuel with
  | O => inl (err_at s)
  | S f =>
      match skip_ws s with
      | 34%N :: r =>
          match parse_string_body r [] with
          | inl e => inl e
          | inr (k, r1) =>
              match skip_ws r1 with
              | 58%N :: r2 =>
                  match pv r2 with
                  | inl e => inl e
                  | inr (v, r3) =>
                      match skip_ws r3 with
                      | 44%N :: r4 => parse_members pv f (obj_set acc k v) r4
                      | 125%N :: r4 => inr (JObj (obj_set acc k v), r4)
                      | r4 => inl (err_at r4)
                      end
                  end
              | r2 => inl (err_at r2)
              end
          end
      | s' => inl (err_at s')
      end
  end.

(** One value, leading whitespace included; [fuel] bounds the nesting. *)
Fixpoint parse_value (fuel : nat) (s : jsstr) : presult jsval :=
  match fuel with
  | O => inl (err_at s)
  | S f =>
      match skip_ws s with
      | [] => inl (err_at [])
      | c :: r =>
          if (c =? 123)%N then
            match skip_ws r with
            | 125%N :: r' => inr (JObj [], r')
            | r' => parse_members (parse_value f) (S (length r')) [] r'
            end
          else if (c =? 91)%N then
            match skip_ws r with
            | 93%N :: r' => inr (JArr [], r')
            | r' => parse_elements (parse_value f) (S (length r')) [] r'
            end
          else if (c =? 34)%N then
            match parse_string_body r [] with
            | inl e => inl e
            | inr (str, r') => inr (JStr str, r')
            end
          else if (c =? 116)%N then
            match expect (u "rue") r with Some r' => inr (JBool true, r') | None => inl (err_at (c :: r)) end
          else if (c =? 102)%N then
            match expect (u "alse") r with Some r' => inr (JBool false, r') | None => inl (err_at (c :: r)) end
          else if (c =? 110)%N then
            match expect (u "ull") r with Some r' => inr (JNull, r') | None => inl (err_at (c :: r)) end
          else if (c =? 45)%N || is_digit c then parse_number (c :: r)
          else inl (err_at (c :: r))
      end
  end.

(** [JSON.parse(s)] for a string [s]: one value, then only whitespace. *)
Definition JSON_parse_str (s : jsstr) : outcome jsval :=
  match parse_value (S (length s)) s with
  | inl e => Throw e
  | inr (v, r) => match skip_ws r with [] => Ok v | r' => Throw (err_at r') end
  end.

(** [JSON.parse(text)]: the argument is first converted with [String]. *)
Definition JSON_parse (text : jsval) : outcome jsval := JSON_parse_str (to_js_string text).

(** ** tryParseJSON *)

(** WhiteSpace and LineTerminator code points: the class [\s] of a regular
    expression and the characters removed by [String.prototype.trim]. *)
Definition js_ws (c : N) : bool :=
  ((c =? 9) || (c =? 10) || (c =? 11) || (c =? 12) || (c =? 13) || (c =? 32)
   || (c =? 160) || (c =? 5760) || ((8192 <=? c) && (c <=? 8202))
   || (c =? 8232) || (c =? 8233) || (c =? 8239) || (c =? 8287)
   || (c =? 12288) || (c =? 65279))%N.

Fixpoint drop_ws (s : jsstr) : jsstr :=
  match s with
  | c :: r => if js_ws c then drop_ws r else s
  | [] => []
  end.

(** [s.trim()] *)
Definition trim (s : jsstr) : jsstr := rev (drop_ws (rev (drop_ws s))).

Definition fence : jsstr := u "```".

(** [s.replace(/^```json\s*/, "")]: the pattern is anchored at the start
    and [\s*] is greedy. *)
Definition strip_open_fence (s : jsstr) : jsstr :=
  match expect (fence ++ u "json") s with
  | Some r => drop_ws r
  | None => s
  end.

(** [s.replace(/```$/, "")]: without the [m] flag [$] only matches at the
    end of the input. *)
Definition strip_close_fence (s : jsstr) : jsstr :=
  if bool_decide (drop (length s - 3) s = fence) && (3 <=? length s)%nat
  then take (length s - 3) s else s.

(** [text.replace(..).replace(..).trim()]: [replace] is a method of
    strings; on any other value the call throws a [TypeError]. *)
Definition clean_text (text : jsval) : outcome jsstr :=
  match text with
  | JStr s => Ok (trim (strip_close_fence (strip_open_fence s)))
  | JUndef => Throw (type_error_read (u "replace") (u "undefined"))
  | JNull => Throw (type_error_read (u "replace") (u "null"))
  | _ => Throw (u "text.replace is not a function")
  end.

(** The object [{ json, error }] returned by [tryParseJSON]. *)
Record parse_result : Type := mkParseResult { pr_json : jsval; pr_error : jsval }.

(** <<
    const tryParseJSON = (text) => {
      try {
        return { json: JSON.parse(text), error: null };
      } catch {
        const cleaned = text
          .replace(/^```json\s*/, "")
          .replace(/```$/, "")
          .trim();
        try {
          return { json: JSON.parse(cleaned), error: null };
        } catch (err) {
          return { json: null, error: err.message };
        }
      }
    };
>>  The [TypeError] of [text.replace] on a non-string escapes both
    [try] blocks, as it is raised in the first [catch]. *)
Definition tryParseJSON (text : jsval) : outcome parse_result :=
  match JSON_parse text with
  | Ok v => Ok (mkParseResult v JNull)
  | Throw _ =>
      obind (clean_text text) (fun cleaned =>
      match JSON_parse (JStr cleaned) with
      | Ok v => Ok (mkParseResult v JNull)
      | Throw msg => Ok (mkParseResult JNull (JStr msg))
      end)
  end.

(** ** Persistence, trace and the handler monad *)

(** A stored [Question] document: the fields the controller reads or
    writes. *)
Record question : Type := mkQuestion { q_question : jsval; q_answer : jsval }.

Definition question_to_js (id : jsstr) (q : question) : jsval :=
  JObj [(u "_id", JStr id); (u "question", q_question q); (u "answer", q_answer q)].

(** The [Question] collection, by ObjectId (as its hex string). *)
Abbreviation store := (gmap jsstr question).

(** The external calls a handler makes, in order. *)
Inductive event : Type :=
| EvPrompt (args : list jsval)
| EvGenerate (request : jsval)
| EvFindById (id : jsval)
| EvFindByIdAndUpdate (id : jsval) (update : jsval).

Record state : Type := mkState { st_db : store; st_trace : list event }.

Definition log (st : state) (ev : event) : state :=
  mkState (st_db st) (st_trace st ++ [ev]).

(** An [async] function body: state passing with exceptions. *)
Definition M (A : Type) : Type := state -> outcome A * state.

Definition retM {A} (a : A) : M A := fun st => (Ok a, st).

Definition bindM {A B} (m : M A) (f : A -> M B) : M B :=
  fun st => match m st with
            | (Ok a, st') => f a st'
            | (Throw e, st') => (Throw e, st')
            end.

Definition liftM {A} (o : outcome A) : M A := fun st => (o, st).

(** [try { m } catch (error) { h(error.message) }] *)
Definition catchM {A} (m : M A) (h : jsstr -> M A) : M A :=
  fun st => match m st with
            | (Throw e, st') => h e st'
            | r => r
            end.

Notation "'let!' x ':=' m 'in' k" := (bindM m (fun x => k))
  (at level 200, x name, m at level 100, k at level 200).

(** [res.status(status).json(body)] *)
Record response : Type := mkResponse { status : N; body : jsval }.

Definition reply (code : N) (fields : list (jsstr * jsval)) : M response :=
  retM (mkResponse code (JObj fields)).

Definition MODEL : jsstr := u "gemini-2.0-flash-lite".

(** [{ model: "gemini-2.0-flash-lite", contents: [{ text: prompt }] }] *)
Definition gen_request (prompt : jsval) : jsval :=
  JObj [(u "model", JStr MODEL); (u "contents", JArr [JObj [(u "text", prompt)]])].

Definition SEP : jsstr := NL ++ NL ++ u "Explanation:" ++ NL.

Section Controller.

(** The prompt templates of [utils/prompt.js]; they may throw. *)
Variable questionAnswerPrompt : jsval -> jsval -> jsval -> jsval -> outcome jsval.
Variable conceptExplainPrompt : jsval -> outcome jsval.
(** [ai.models.generateContent(request)]: the provider's response, or a
    rejection. *)
Variable generateContent : jsval -> outcome jsval.
(** Mongoose's cast of an id to an ObjectId; [None] is a [CastError]. *)
Variable cast_id : jsval -> option jsstr.

Definition call_prompt (args : list jsval) (r : outcome jsval) : M jsval :=
  fun st => (r, log st (EvPrompt args)).

Definition generate (request : jsval) : M jsval :=
  fun st => (generateContent request, log st (EvGenerate request)).

Definition cast_error (id : jsval) : jsstr :=
  u "Cast to ObjectId failed for value " ++ to_js_string id.

(** [Question.findById(id)] *)
Definition findById (id : jsval) : M (option question) :=
  fun st =>
    let st' := log st (EvFindById id) in
    match cast_id id with
    | None => (Throw (cast_error id), st')
    | Some k => (Ok (st_db st !! k), st')
    end.

(** [Question.findByIdAndUpdate(id, { answer }, { new: true })] *)
Definition findByIdAndUpdate (id : jsval) (answer : jsstr) : M (option (jsstr * question)) :=
  fun st =>
    let st' := log st (EvFindByIdAndUpdate id (JObj [(u "answer", JStr answer)])) in
    match cast_id id with
    | None => (Throw (cast_error id), st')
    | Some k =>
        match st_db st !! k with
        | None => (Ok None, st')
        | Some q =>
            let q' := mkQuestion (q_question q) (JStr answer) in
            (Ok (Some (k, q')), mkState (<[k := q']> (st_db st)) (st_trace st'))
        end
    end.

(** <<
    const generateInterviewQuestions = async (req, res) => { ... }
>> *)
Definition generateInterviewQuestions (reqbody : jsval) : M response :=
  catchM
    (let! role := liftM (get reqbody (u "role")) in
     let! experience := liftM (get reqbody (u "experience")) in
     let! topicsToFocus := liftM (get reqbody (u "topicsToFocus")) in
     let! numberOfQuestions := liftM (get reqbody (u "numberOfQuestions")) in
     if negb (truthy role) || negb (truthy experience) || negb (truthy topicsToFocus)
        || negb (truthy numberOfQuestions)
     then reply 400 [(u "message", JStr (u "Missing required fields"))]
     else
     let! prompt := call_prompt [role; experience; topicsToFocus; numberOfQuestions]
                      (questionAnswerPrompt role experience topicsToFocus numberOfQuestions) in
     let! response := generate (gen_request prompt) in
     let! text := liftM (getGeminiText response) in
     if negb (truthy text)
     then reply 500 [(u "message", JStr (u "No response from Gemini"))]
     else
     let! r := liftM (tryParseJSON text) in
     if truthy (pr_json r)
     then reply 200 [(u "questions", pr_json r)]
     else reply 500 [(u "message", JStr (u "Gemini returned invalid JSON"));
                     (u "raw", text); (u "error", pr_error r)])
    (fun msg => reply 500 [(u "message", JStr (u "Failed to generate questions"));
                           (u "error", JStr msg)]).

(** <<
    let explanation = "";
    if (json?.explanation) {
      explanation = json.explanation;
    } else {
      explanation = typeof json === "object" ? JSON.stringify(json) : text;
    }
>> *)
Definition derive_explanation (json text : jsval) : outcome jsval :=
  obind (optget json (u "explanation")) (fun ex =>
  if truthy ex then get json (u "explanation")
  else Ok (if typeof_object json then JSON_stringify json else text)).

(** [`${existingQuestion.answer || ""}\n\nExplanation:\n${explanation}`] *)
Definition newAnswer (existing : question) (explanation : jsval) : jsstr :=
  to_js_string (if truthy (q_answer existing) then q_answer existing else JStr [])
  ++ SEP ++ to_js_string explanation.

(** <<
    const generateConceptExplanation = async (req, res) => { ... }
>> *)
Definition generateConceptExplanation (reqbody : jsval) : M response :=
  catchM
    (let! questionId := liftM (get reqbody (u "questionId")) in
     let! question := liftM (get reqbody (u "question")) in
     if negb (truthy questionId) || negb (truthy question)
     then reply 400 [(u "message", JStr (u "Missing required fields"))]
     else
     let! prompt := call_prompt [question] (conceptExplainPrompt question) in
     let! response := generate (gen_request prompt) in
     let! text := liftM (getGeminiText response) in
     if negb (truthy text)
     then reply 500 [(u "message", JStr (u "No response from Gemini"))]
     else
     let! r := liftM (tryParseJSON text) in
     let! explanation := liftM (derive_explanation (pr_json r) text) in
     let! existingQuestion := findById questionId in
     match existingQuestion with
     | None => reply 404 [(u "message", JStr (u "Question not found"))]
     | Some q =>
         let! updated := findByIdAndUpdate questionId (newAnswer q explanation) in
         reply 200 [(u "question", match updated with
                                   | Some (k, q') => question_to_js k q'
                                   | None => JNull
                                   end)]
     end)
    (fun msg => reply 500 [(u "message", JStr (u "Failed to generate explanation"));
                           (u "error", JStr msg)]).

End Controller.

(** * Properties *)

(** ** Property access *)

Lemma get_total (v : jsval) (k : jsstr) :
  v <> JUndef -> v <> JNull -> exists w, get v k = Ok w.
Proof.
  intros H1 H2. destruct v; try congruence; simpl; eauto;
    repeat case_match; eauto.
Qed.

Lemma optget_total (v : jsval) (k : jsstr) : exists w, optget v k = Ok w.
Proof.
  destruct v; try (simpl; eauto; fail); apply get_total; discriminate.
Qed.

Lemma optget_nullish (v : jsval) (k : jsstr) :
  v = JUndef \/ v = JNull -> optget v k = Ok JUndef.
Proof. intros [-> | ->]; reflexivity. Qed.

(** A step of an optional chain that yields something other than
    [undefined] is a plain property read from a non-nullish value. *)
Lemma optget_get (v w : jsval) (k : jsstr) :
  optget v k = Ok w -> w <> JUndef -> get v k = Ok w /\ v <> JUndef /\ v <> JNull.
Proof.
  intros H Hw. destruct v; simpl in H; try (inversion H; congruence);
    repeat split; try discriminate; exact H.
Qed.

Lemma truthy_not_nullish (v : jsval) : truthy v = true -> v <> JUndef /\ v <> JNull.
Proof. destruct v; simpl; intros H; split; congruence. Qed.

Lemma optget_truthy (v : jsval) (k : jsstr) :
  truthy v = true -> optget v k = get v k.
Proof. destruct v; simpl; congruence. Qed.

(** Falsy values that are not nullish have none of the path's keys. *)
Lemma falsy_get_candidates (v : jsval) :
  truthy v = false -> optget v (u "candidates") = Ok JUndef.
Proof.
  destruct v as [| |b|neg m e|s|l|l]; simpl; try discriminate; reflexivity.
Qed.

(** ** C6: ResponseExtractor *)

(** The value [getGeminiText] returns: the text at the path, when it is
    there and truthy, and [null] otherwise. *)
Definition extracted (response : jsval) : jsval :=
  match text_path response with
  | Some t => if truthy t then t else JNull
  | None => JNull
  end.

(** [getGeminiText] never throws: it returns [extracted response]. *)
Lemma getGeminiText_extracted (response : jsval) :
  getGeminiText response = Ok (extracted response).
Proof.
  unfold getGeminiText, extracted, text_path.
  destruct (truthy response) eqn:Hr.
  - rewrite (optget_truthy _ _ Hr).
    destruct (truthy_not_nullish _ Hr) as [Hru Hrn].
    destruct (get_total response (u "candidates") Hru Hrn) as [c Hc].
    rewrite Hc; cbn [obind].
    destruct (optget_total c (u "0")) as [c0 H1]; rewrite H1; cbn [obind].
    destruct (optget_total c0 (u "content")) as [ct H2]; rewrite H2; cbn [obind].
    destruct (optget_total ct (u "parts")) as [ps H3]; rewrite H3; cbn [obind].
    destruct (optget_total ps (u "0")) as [p0 H4]; rewrite H4; cbn [obind].
    destruct (optget_total p0 (u "text")) as [t H5]; rewrite H5; cbn [obind].
    destruct (truthy t) eqn:Ht.
    + destruct (truthy_not_nullish _ Ht) as [Htu _].
      destruct (optget_get _ _ _ H5 Htu) as [G5 [Up0 _]].
      destruct (optget_get _ _ _ H4 Up0) as [G4 [Ups _]].
      destruct (optget_get _ _ _ H3 Ups) as [G3 [Uct _]].
      destruct (optget_get _ _ _ H2 Uct) as [G2 [Uc0 _]].
      destruct (optget_get _ _ _ H1 Uc0) as [G1 _].
      rewrite G1; cbn [obind]; rewrite G2; cbn [obind];
        rewrite G3; cbn [obind]; rewrite G4; cbn [obind]; rewrite G5.
      destruct t; cbn in Ht |- *; try discriminate; try contradiction;
        try rewrite Ht; reflexivity.
    + destruct t; cbn in Ht |- *; try discriminate; try rewrite Ht; reflexivity.
  - rewrite (falsy_get_candidates _ Hr). reflexivity.
Qed.

(** C6: for every response object, including [null], one without a
    [candidates] array, one whose [candidates] array is empty, or one
    lacking any nested field, [getGeminiText] raises no fault and returns
    [null]; it returns a text only when that text is present at
    candidates[0] -> content -> parts[0] -> text. *)
Theorem getGeminiText_total_absent_or_path :
  (forall response : jsval,
     getGeminiText response = Ok (extracted response)
     /\ (extracted response = JNull
         \/ (text_path response = Some (extracted response)
             /\ truthy (extracted response) = true)))
  /\ getGeminiText JNull = Ok JNull
  /\ getGeminiText (JObj []) = Ok JNull
  /\ (forall rest, getGeminiText (JObj ((u "candidates", JArr []) :: rest)) = Ok JNull).
Proof.
  assert (Hmain := getGeminiText_extracted).
  split; [| split; [| split]].
  - intros response. split; [apply Hmain |].
    unfold extracted. destruct (text_path response) as [t|] eqn:Hp; [| left; reflexivity].
    destruct (truthy t) eqn:Ht; [right; split; [reflexivity | exact Ht] | left; reflexivity].
  - reflexivity.
  - reflexivity.
  - intros rest. reflexivity.
Qed.

(** ** JsonRecovery *)

Definition dq : jsstr := [34%N].

(** [{"a":1}] *)
Definition json_a1 : jsstr := u "{" ++ dq ++ u "a" ++ dq ++ u ":1}".

Lemma JSON_parse_JStr (s : jsstr) : JSON_parse (JStr s) = JSON_parse_str s.
Proof. reflexivity. Qed.

(** C5: a text that is valid JSON is returned parsed by the first
    attempt, with [error: null]; the fence-stripping fallback is not
    used. *)
Theorem tryParseJSON_valid_first_attempt (s : jsstr) (v : jsval)
    (Hvalid : JSON_parse_str s = Ok v) :
  tryParseJSON (JStr s) = Ok (mkParseResult v JNull).
Proof. unfold tryParseJSON. rewrite JSON_parse_JStr, Hvalid. reflexivity. Qed.

Lemma tryParseJSON_valid_first_attempt_witness :
  JSON_parse_str json_a1 = Ok (JObj [(u "a", JNum false 1 0)])
  /\ tryParseJSON (JStr json_a1) = Ok (mkParseResult (JObj [(u "a", JNum false 1 0)]) JNull).
Proof.
  split; [vm_compute; reflexivity |].
  apply tryParseJSON_valid_first_attempt. vm_compute. reflexivity.
Defined.

(** A provider response carrying [t] at the expected path. *)
Definition gemini_response (t : jsval) : jsval :=
  JObj [(u "candidates",
         JArr [JObj [(u "content", JObj [(u "parts", JArr [JObj [(u "text", t)]])])]])].

Lemma extracted_truthy (response t : jsval) :
  extracted response = t -> t <> JNull -> truthy t = true.
Proof.
  unfold extracted. intros <- Hn. destruct (text_path response); [| congruence].
  destruct (truthy j) eqn:E; congruence.
Qed.

Definition questions_body (role experience topicsToFocus numberOfQuestions : jsval) : jsval :=
  JObj [(u "role", role); (u "experience", experience);
        (u "topicsToFocus", topicsToFocus); (u "numberOfQuestions", numberOfQuestions)].

Lemma questions_body_get (role experience topicsToFocus numberOfQuestions : jsval) :
  let b := questions_body role experience topicsToFocus numberOfQuestions in
  get b (u "role") = Ok role /\ get b (u "experience") = Ok experience
  /\ get b (u "topicsToFocus") = Ok topicsToFocus
  /\ get b (u "numberOfQuestions") = Ok numberOfQuestions.
Proof. repeat split; reflexivity. Qed.

Ltac run_handler :=
  unfold catchM, bindM, liftM, call_prompt, generate;
  cbn -[u truthy tryParseJSON getGeminiText derive_explanation newAnswer].

(** C4: when both the strict parse and the fence-stripped parse fail,
    [tryParseJSON] returns [{ json: null, error }] with the message of the
    second attempt, and [generateInterviewQuestions] answers 500 with the
    raw text and that message. *)
Theorem tryParseJSON_both_fail_last_error (s e1 e2 : jsstr)
    (H1 : JSON_parse_str s = Throw e1)
    (H2 : JSON_parse_str (trim (strip_close_fence (strip_open_fence s))) = Throw e2) :
  tryParseJSON (JStr s) = Ok (mkParseResult JNull (JStr e2))
  /\ (forall qap gen (role experience topicsToFocus numberOfQuestions prompt response : jsval)
        (st : state),
        truthy role = true -> truthy experience = true ->
        truthy topicsToFocus = true -> truthy numberOfQuestions = true ->
        qap role experience topicsToFocus numberOfQuestions = Ok prompt ->
        gen (gen_request prompt) = Ok response ->
        extracted response = JStr s ->
        fst (generateInterviewQuestions qap gen
               (questions_body role experience topicsToFocus numberOfQuestions) st)
        = Ok (mkResponse 500 (JObj [(u "message", JStr (u "Gemini returned invalid JSON"));
                                    (u "raw", JStr s); (u "error", JStr e2)]))).
Proof.
  assert (Hp : tryParseJSON (JStr s) = Ok (mkParseResult JNull (JStr e2))).
  { unfold tryParseJSON. rewrite JSON_parse_JStr, H1. cbn [clean_text obind].
    rewrite JSON_parse_JStr, H2. reflexivity. }
  split; [exact Hp |].
  intros qap gen role experience topicsToFocus numberOfQuestions prompt response st
    Hr He Ht Hn Hq Hg Hx.
  assert (Hs : truthy (JStr s) = true) by (apply (extracted_truthy response); congruence).
  unfold generateInterviewQuestions.
  destruct (questions_body_get role experience topicsToFocus numberOfQuestions)
    as (G1 & G2 & G3 & G4).
  rewrite G1, G2, G3, G4. run_handler.
  rewrite Hr, He, Ht, Hn. cbn -[u truthy tryParseJSON getGeminiText].
  rewrite Hq, Hg, getGeminiText_extracted, Hx, Hs, Hp. reflexivity.
Qed.

Lemma tryParseJSON_both_fail_last_error_witness :
  JSON_parse_str (u "not json at all") = Throw (u "Unexpected token n in JSON")
  /\ tryParseJSON (JStr (u "not json at all"))
     = Ok (mkParseResult JNull (JStr (u "Unexpected token n in JSON")))
  /\ fst (generateInterviewQuestions (fun _ _ _ _ => Ok (JStr (u "prompt")))
            (fun _ => Ok (gemini_response (JStr (u "not json at all"))))
            (questions_body (JStr (u "dev")) (JStr (u "2")) (JStr (u "js")) (JNum false 5 0))
            (mkState ∅ []))
     = Ok (mkResponse 500 (JObj [(u "message", JStr (u "Gemini returned invalid JSON"));
                                 (u "raw", JStr (u "not json at all"));
                                 (u "error", JStr (u "Unexpected token n in JSON"))])).
Proof.
  assert (H1 : JSON_parse_str (u "not json at all") = Throw (u "Unexpected token n in JSON"))
    by (vm_compute; reflexivity).
  assert (H2 : JSON_parse_str (trim (strip_close_fence (strip_open_fence (u "not json at all"))))
               = Throw (u "Unexpected token n in JSON")) by (vm_compute; reflexivity).
  destruct (tryParseJSON_both_fail_last_error _ _ _ H1 H2) as [Hp Hh].
  split; [exact H1 | split; [exact Hp |]].
  apply (Hh _ _ _ _ _ _ (JStr (u "prompt")) (gemini_response (JStr (u "not json at all"))));
    reflexivity.
Defined.

(** ** Whitespace stripping *)

Lemma drop_ws_length (s : jsstr) : length (drop_ws s) <= length s.
Proof. induction s as [|c r IH]; simpl; [lia |]. destruct (js_ws c); simpl; lia. Qed.

Lemma drop_ws_app_start (x t : jsstr) :
  drop_ws x = x -> x <> [] -> drop_ws (x ++ t) = x ++ t.
Proof.
  destruct x as [|c r]; [congruence |]. simpl. intros H _.
  destruct (js_ws c) eqn:E; [| reflexivity].
  pose proof (drop_ws_length r). rewrite H in H0. simpl in H0. lia.
Qed.

Lemma drop_ws_ws_app (w t : jsstr) :
  Forall (fun c => js_ws c = true) w -> drop_ws (w ++ t) = drop_ws t.
Proof. induction 1 as [|c w Hc _ IH]; simpl; [reflexivity |]. rewrite Hc. exact IH. Qed.

Lemma expect_app (lit t : jsstr) : expect lit (lit ++ t) = Some t.
Proof. induction lit as [|c l IH]; simpl; [reflexivity |]. rewrite N.eqb_refl. exact IH. Qed.

Lemma JSON_parse_str_nil : JSON_parse_str [] = Throw (err_at []).
Proof. reflexivity. Qed.

Lemma strip_close_fence_app (x : jsstr) : strip_close_fence (x ++ fence) = x.
Proof.
  unfold strip_close_fence.
  assert (Hl : length (x ++ fence) - 3 = length x) by (rewrite length_app; simpl; lia).
  rewrite Hl, drop_app_length, take_app_length.
  rewrite bool_decide_eq_true_2 by reflexivity.
  replace (3 <=? length (x ++ fence))%nat with true; [reflexivity |].
  symmetry. apply Nat.leb_le. rewrite length_app. simpl. lia.
Qed.

Lemma trim_app_ws (j w : jsstr) :
  drop_ws j = j -> drop_ws (rev j) = rev j -> j <> [] ->
  Forall (fun c => js_ws c = true) w -> trim (j ++ w) = j.
Proof.
  intros Hh Ht Hne Hw. unfold trim.
  rewrite (drop_ws_app_start _ _ Hh Hne), rev_app_distr.
  rewrite drop_ws_ws_app by (apply Forall_rev; exact Hw).
  rewrite Ht. apply rev_involutive.
Qed.

(** C3 (as the code has it): a text that fails the strict parse is
    cleaned by removing a leading ["```json"] marker (the tag [json] is
    required) with the whitespace after it, then a ["```"] that ends the
    text, then trimming, and is parsed again.  So
    ["```json" ++ w1 ++ j ++ w2 ++ "```"], for a JSON text [j] without
    surrounding whitespace and whitespace runs [w1], [w2], yields the value
    of [j]. *)
Theorem tryParseJSON_json_fence_fallback (j w1 w2 : jsstr) (v : jsval)
    (Hj : JSON_parse_str j = Ok v)
    (Hhead : drop_ws j = j) (Htail : drop_ws (rev j) = rev j)
    (Hw1 : Forall (fun c => js_ws c = true) w1)
    (Hw2 : Forall (fun c => js_ws c = true) w2) :
  tryParseJSON (JStr (fence ++ u "json" ++ w1 ++ j ++ w2 ++ fence))
  = Ok (mkParseResult v JNull)
  /\ (forall (s e : jsstr), JSON_parse_str s = Throw e ->
        tryParseJSON (JStr s)
        = match JSON_parse_str (trim (strip_close_fence (strip_open_fence s))) with
          | Ok w => Ok (mkParseResult w JNull)
          | Throw m => Ok (mkParseResult JNull (JStr m))
          end).
Proof.
  assert (Hfb : forall (s e : jsstr), JSON_parse_str s = Throw e ->
            tryParseJSON (JStr s)
            = match JSON_parse_str (trim (strip_close_fence (strip_open_fence s))) with
              | Ok w => Ok (mkParseResult w JNull)
              | Throw m => Ok (mkParseResult JNull (JStr m))
              end).
  { intros s e He. unfold tryParseJSON. rewrite JSON_parse_JStr, He. reflexivity. }
  split; [| exact Hfb].
  assert (Hne : j <> []) by (intros ->; rewrite JSON_parse_str_nil in Hj; discriminate).
  assert (Hfirst : JSON_parse_str (fence ++ u "json" ++ w1 ++ j ++ w2 ++ fence)
                   = Throw (err_at (fence ++ u "json" ++ w1 ++ j ++ w2 ++ fence)))
    by reflexivity.
  rewrite (Hfb _ _ Hfirst).
  assert (Hopen : strip_open_fence (fence ++ u "json" ++ w1 ++ j ++ w2 ++ fence)
                  = j ++ w2 ++ fence).
  { unfold strip_open_fence. rewrite (app_assoc fence), expect_app.
    rewrite (drop_ws_ws_app _ _ Hw1).
    apply drop_ws_app_start; assumption. }
  rewrite Hopen, app_assoc, strip_close_fence_app, (trim_app_ws _ _ Hhead Htail Hne Hw2), Hj.
  reflexivity.
Qed.

Lemma tryParseJSON_json_fence_fallback_witness :
  tryParseJSON (JStr (fence ++ u "json" ++ NL ++ json_a1 ++ NL ++ fence))
  = Ok (mkParseResult (JObj [(u "a", JNum false 1 0)]) JNull).
Proof.
  apply (tryParseJSON_json_fence_fallback json_a1 NL NL (JObj [(u "a", JNum false 1 0)]));
    try (vm_compute; reflexivity); repeat constructor.
Defined.

(** C3 counterexample: a fence without a language tag is not removed:
    the fallback leaves the leading ["```"] and the result is a failure,
    not the value of [{"a":1}]. *)
Lemma tryParseJSON_untagged_fence_not_stripped :
  tryParseJSON (JStr (fence ++ NL ++ json_a1 ++ NL ++ fence))
  = Ok (mkParseResult JNull (JStr (u "Unexpected token ` in JSON"))).
Proof. vm_compute. reflexivity. Qed.

(** ** The explanation of generateConceptExplanation *)

(** Lines 104-111: [tryParseJSON(text)] and the choice of the
    explanation from its [json]. *)
Definition explanation_of (text : jsval) : outcome jsval :=
  obind (tryParseJSON text) (fun r => derive_explanation (pr_json r) text).

(** The choice of C1 as amended, written from its words: the
    [.explanation] field of a parsed object when it is truthy, else the
    stringified object or array, else (a string, number or boolean) the
    raw text. *)
Definition amended_explanation (json text : jsval) : jsval :=
  match json with
  | JObj kvs =>
      if truthy (assoc_lookup (u "explanation") kvs)
      then assoc_lookup (u "explanation") kvs else JSON_stringify json
  | JArr _ => JSON_stringify json
  | _ => text
  end.

Lemma tryParseJSON_string_ok (s : jsstr) :
  exists r, tryParseJSON (JStr s) = Ok r.
Proof.
  unfold tryParseJSON. destruct (JSON_parse (JStr s)); [eauto |].
  cbn [clean_text obind]. destruct (JSON_parse _); eauto.
Qed.

Lemma derive_explanation_ok (json text : jsval) :
  exists ex, derive_explanation json text = Ok ex.
Proof.
  unfold derive_explanation.
  destruct (optget_total json (u "explanation")) as [ex Hex]. rewrite Hex. cbn [obind].
  destruct (truthy ex) eqn:Ht; [| eauto].
  apply get_total; intros ->; simpl in Hex; inversion Hex; subst; discriminate.
Qed.

(** [{"explanation":""}] *)
Definition json_empty_explanation : jsstr :=
  u "{" ++ dq ++ u "explanation" ++ dq ++ u ":" ++ dq ++ dq ++ u "}".

(** C1 counterexample: a text that does not parse gives the explanation
    ["null"] ([typeof null === "object"], then [JSON.stringify(null)]), not
    the raw text; and an [.explanation] field that is present but empty is
    not used: the whole object is stringified. *)
Lemma explanation_of_unparsed_is_null :
  explanation_of (JStr (u "not json at all")) = Ok (JStr (u "null"))
  /\ explanation_of (JStr json_empty_explanation) = Ok (JStr json_empty_explanation).
Proof. split; vm_compute; reflexivity. Qed.

(** C1 (as amended): for every extracted text string, JSON recovery
    returns a result, and whenever its [json] is not [null] the explanation
    is the truthy [.explanation] field of a parsed object, else the
    stringified object or array, else the raw text. *)
Theorem explanation_of_fallback_order (s : jsstr) :
  exists json err,
    tryParseJSON (JStr s) = Ok (mkParseResult json err)
    /\ (json <> JNull -> explanation_of (JStr s) = Ok (amended_explanation json (JStr s))).
Proof.
  destruct (tryParseJSON_string_ok s) as [[json err] Hr].
  exists json, err. split; [exact Hr |]. intros Hn.
  unfold explanation_of. rewrite Hr. cbn [obind pr_json].
  unfold derive_explanation, amended_explanation.
  destruct json as [| |b|neg m e|str|l|kvs]; try congruence; try reflexivity.
  cbn [optget get obind]. destruct (truthy (assoc_lookup (u "explanation") kvs)); reflexivity.
Qed.

(** ** Appending the explanation *)

Definition explanation_body (questionId question : jsval) : jsval :=
  JObj [(u "questionId", questionId); (u "question", question)].

Lemma explanation_body_get (questionId question : jsval) :
  get (explanation_body questionId question) (u "questionId") = Ok questionId
  /\ get (explanation_body questionId question) (u "question") = Ok question.
Proof. split; reflexivity. Qed.

Ltac run_handler_db :=
  unfold catchM, bindM, liftM, call_prompt, generate, findById, findByIdAndUpdate,
    reply, retM, log;
  cbn -[u truthy tryParseJSON getGeminiText derive_explanation newAnswer lookup insert SEP].

Lemma newAnswer_string (q : question) (a e : jsstr) :
  q_answer q = JStr a -> newAnswer q (JStr e) = a ++ SEP ++ e.
Proof.
  intros Ha. unfold newAnswer. rewrite Ha. cbn [truthy].
  destruct a; reflexivity.
Qed.

(** C2: when the question exists, the handler stores as its answer the
    prior answer ([""] when absent or empty), then ["\n\nExplanation:\n"],
    then the explanation; the prior answer is a prefix of the new one. *)
Theorem explanation_appended_to_answer (cep : jsval -> outcome jsval)
    (gen : jsval -> outcome jsval) (cast : jsval -> option jsstr)
    (questionId qtext prompt response explanation : jsval)
    (k : jsstr) (q : question) (db : store) (tr : list event)
    (Hid : truthy questionId = true) (Hqu : truthy qtext = true)
    (Hp : cep qtext = Ok prompt) (Hg : gen (gen_request prompt) = Ok response)
    (Ht : truthy (extracted response) = true)
    (He : explanation_of (extracted response) = Ok explanation)
    (Hk : cast questionId = Some k) (Hq : db !! k = Some q) :
  let '(res, st') := generateConceptExplanation cep gen cast
                       (explanation_body questionId qtext) (mkState db tr) in
  (exists b, res = Ok (mkResponse 200 b))
  /\ st_db st' = <[k := mkQuestion (q_question q) (JStr (newAnswer q explanation))]> db
  /\ (forall a e, q_answer q = JStr a -> explanation = JStr e ->
        newAnswer q explanation = a ++ SEP ++ e)
  /\ (forall e, q_answer q = JUndef -> explanation = JStr e ->
        newAnswer q explanation = SEP ++ e)
  /\ (forall a, q_answer q = JStr a -> exists rest, newAnswer q explanation = a ++ rest).
Proof.
  unfold explanation_of in He.
  destruct (tryParseJSON (extracted response)) as [r|m] eqn:Hr; [| discriminate].
  cbn [obind] in He.
  unfold generateConceptExplanation.
  destruct (explanation_body_get questionId qtext) as [G1 G2]. rewrite G1, G2.
  run_handler_db.
  rewrite Hid, Hqu. cbn -[u truthy tryParseJSON getGeminiText derive_explanation newAnswer lookup insert].
  rewrite Hp, Hg, getGeminiText_extracted, Ht, Hr, He, Hk.
  cbn -[u truthy newAnswer lookup insert SEP].
  rewrite Hq. cbn -[u truthy newAnswer lookup insert SEP].
  rewrite Hq. cbn -[u truthy newAnswer lookup insert SEP].
  split; [eauto |]. split; [reflexivity |].
  split; [intros a e Ha -> ; apply newAnswer_string; exact Ha |].
  split; [intros e Ha -> ; unfold newAnswer; rewrite Ha; reflexivity |].
  intros a Ha. unfold newAnswer. rewrite Ha. cbn [truthy].
  destruct a; [exists (SEP ++ to_js_string explanation); reflexivity |].
  eexists. reflexivity.
Qed.

(** A concrete deployment used by the witnesses. *)
Definition demo_cast (v : jsval) : option jsstr :=
  match v with JStr s => Some s | _ => None end.

Definition demo_db : store :=
  <[u "q1" := mkQuestion (JStr (u "What is a closure?")) (JStr (u "A"))]> ∅.

(** [{"explanation":"B"}] *)
Definition json_expl_B : jsstr :=
  u "{" ++ dq ++ u "explanation" ++ dq ++ u ":" ++ dq ++ u "B" ++ dq ++ u "}".

Lemma explanation_appended_to_answer_witness :
  let '(res, st') :=
    generateConceptExplanation (fun _ => Ok (JStr (u "prompt")))
      (fun _ => Ok (gemini_response (JStr json_expl_B))) demo_cast
      (explanation_body (JStr (u "q1")) (JStr (u "What is a closure?")))
      (mkState demo_db []) in
  (exists b, res = Ok (mkResponse 200 b))
  /\ st_db st' = <[u "q1" := mkQuestion (JStr (u "What is a closure?"))
                               (JStr (newAnswer (mkQuestion (JStr (u "What is a closure?")) (JStr (u "A")))
                                        (JStr (u "B"))))]> demo_db
  /\ (forall a e, JStr (u "A") = JStr a -> JStr (u "B") = JStr e ->
        newAnswer (mkQuestion (JStr (u "What is a closure?")) (JStr (u "A"))) (JStr (u "B"))
        = a ++ SEP ++ e)
  /\ (forall e, JStr (u "A") = JUndef -> JStr (u "B") = JStr e ->
        newAnswer (mkQuestion (JStr (u "What is a closure?")) (JStr (u "A"))) (JStr (u "B"))
        = SEP ++ e)
  /\ (forall a, JStr (u "A") = JStr a -> exists rest,
        newAnswer (mkQuestion (JStr (u "What is a closure?")) (JStr (u "A"))) (JStr (u "B"))
        = a ++ rest).
Proof.
  apply (explanation_appended_to_answer (fun _ => Ok (JStr (u "prompt")))
           (fun _ => Ok (gemini_response (JStr json_expl_B))) demo_cast
           (JStr (u "q1")) (JStr (u "What is a closure?")) (JStr (u "prompt"))
           (gemini_response (JStr json_expl_B)) (JStr (u "B")) (u "q1")
           (mkQuestion (JStr (u "What is a closure?")) (JStr (u "A"))) demo_db []);
    vm_compute; reflexivity.
Defined.

(** ** The presence check of generateInterviewQuestions *)

Definition missing_fields_response : response :=
  mkResponse 400 (JObj [(u "message", JStr (u "Missing required fields"))]).

Definition all_present (role experience topicsToFocus numberOfQuestions : jsval) : bool :=
  truthy role && truthy experience && truthy topicsToFocus && truthy numberOfQuestions.

Lemma generateInterviewQuestions_rejects (qap : jsval -> jsval -> jsval -> jsval -> outcome jsval)
    (gen : jsval -> outcome jsval) (reqbody role experience topicsToFocus numberOfQuestions : jsval)
    (st : state)
    (G1 : get reqbody (u "role") = Ok role) (G2 : get reqbody (u "experience") = Ok experience)
    (G3 : get reqbody (u "topicsToFocus") = Ok topicsToFocus)
    (G4 : get reqbody (u "numberOfQuestions") = Ok numberOfQuestions) :
  all_present role experience topicsToFocus numberOfQuestions = false ->
  generateInterviewQuestions qap gen reqbody st = (Ok missing_fields_response, st).
Proof.
  unfold all_present. intros Hf.
  unfold generateInterviewQuestions. rewrite G1, G2, G3, G4.
  unfold catchM, bindM, liftM. cbn [obind].
  replace (negb (truthy role) || negb (truthy experience) || negb (truthy topicsToFocus)
           || negb (truthy numberOfQuestions)) with true.
  - reflexivity.
  - destruct (truthy role), (truthy experience), (truthy topicsToFocus),
      (truthy numberOfQuestions); simpl in *; congruence.
Qed.

Lemma generateInterviewQuestions_accepts (qap : jsval -> jsval -> jsval -> jsval -> outcome jsval)
    (gen : jsval -> outcome jsval) (reqbody role experience topicsToFocus numberOfQuestions : jsval)
    (st : state)
    (G1 : get reqbody (u "role") = Ok role) (G2 : get reqbody (u "experience") = Ok experience)
    (G3 : get reqbody (u "topicsToFocus") = Ok topicsToFocus)
    (G4 : get reqbody (u "numberOfQuestions") = Ok numberOfQuestions) :
  all_present role experience topicsToFocus numberOfQuestions = true ->
  snd (generateInterviewQuestions qap gen reqbody st)
  = mkState (st_db st)
      (st_trace st ++ EvPrompt [role; experience; topicsToFocus; numberOfQuestions]
         :: match qap role experience topicsToFocus numberOfQuestions with
            | Ok prompt => [EvGenerate (gen_request prompt)]
            | Throw _ => []
            end).
Proof.
  unfold all_present. intros Ht.
  unfold generateInterviewQuestions. rewrite G1, G2, G3, G4.
  unfold catchM, bindM, liftM. cbn [obind].
  replace (negb (truthy role) || negb (truthy experience) || negb (truthy topicsToFocus)
           || negb (truthy numberOfQuestions)) with false
    by (destruct (truthy role), (truthy experience), (truthy topicsToFocus),
          (truthy numberOfQuestions); simpl in *; congruence).
  unfold call_prompt, generate, reply, retM, log. cbn -[u truthy tryParseJSON getGeminiText].
  destruct (qap role experience topicsToFocus numberOfQuestions) as [prompt|m];
    cbn -[u truthy tryParseJSON getGeminiText]; [| rewrite <- ?app_assoc; reflexivity].
  destruct (gen (gen_request prompt)) as [resp|m];
    cbn -[u truthy tryParseJSON getGeminiText]; [| rewrite <- ?app_assoc; reflexivity].
  rewrite getGeminiText_extracted. cbn -[u truthy tryParseJSON].
  destruct (truthy (extracted resp)); cbn -[u truthy tryParseJSON];
    [| rewrite <- ?app_assoc; reflexivity].
  destruct (tryParseJSON (extracted resp)) as [pr|m]; cbn -[u truthy];
    [destruct (truthy (pr_json pr)) |]; rewrite <- ?app_assoc; reflexivity.
Qed.

Definition absent_or_empty (v : jsval) : Prop := v = JUndef \/ v = JNull \/ v = JStr [].

(** C7: when any of [role], [experience], [topicsToFocus],
    [numberOfQuestions] is absent or empty, [generateInterviewQuestions]
    answers 400 "Missing required fields" and the state, hence the trace
    of external calls, is unchanged: the provider is not called. *)
Theorem generateInterviewQuestions_missing_field_400
    (qap : jsval -> jsval -> jsval -> jsval -> outcome jsval) (gen : jsval -> outcome jsval)
    (reqbody role experience topicsToFocus numberOfQuestions : jsval) (st : state)
    (G1 : get reqbody (u "role") = Ok role) (G2 : get reqbody (u "experience") = Ok experience)
    (G3 : get reqbody (u "topicsToFocus") = Ok topicsToFocus)
    (G4 : get reqbody (u "numberOfQuestions") = Ok numberOfQuestions)
    (Hmissing : Exists absent_or_empty [role; experience; topicsToFocus; numberOfQuestions]) :
  generateInterviewQuestions qap gen reqbody st = (Ok missing_fields_response, st).
Proof.
  apply (generateInterviewQuestions_rejects _ _ _ _ _ _ _ _ G1 G2 G3 G4).
  unfold all_present.
  assert (Hf : forall v, absent_or_empty v -> truthy v = false)
    by (intros v [-> | [-> | ->]]; reflexivity).
  repeat (inversion Hmissing as [x l Hx | x l Hx]; subst; clear Hmissing;
          [rewrite (Hf _ Hx); rewrite ?andb_false_r; reflexivity | rename Hx into Hmissing]).
  inversion Hmissing.
Qed.

Lemma generateInterviewQuestions_missing_field_400_witness :
  generateInterviewQuestions (fun _ _ _ _ => Ok (JStr (u "prompt")))
    (fun _ => Ok (gemini_response (JStr json_a1)))
    (JObj [(u "role", JStr (u "dev")); (u "experience", JStr []);
           (u "topicsToFocus", JStr (u "js"))])
    (mkState ∅ [])
  = (Ok missing_fields_response, mkState ∅ []).
Proof.
  apply (generateInterviewQuestions_missing_field_400 _ _ _
           (JStr (u "dev")) (JStr []) (JStr (u "js")) JUndef); try reflexivity.
  apply Exists_cons_tl, Exists_cons_hd. right; right; reflexivity.
Defined.

(** C8 counterexample: a present numeric [numberOfQuestions] equal to 0 is
    rejected with 400 (the check is [!numberOfQuestions]). *)
Lemma generateInterviewQuestions_zero_count_rejected :
  generateInterviewQuestions (fun _ _ _ _ => Ok (JStr (u "prompt")))
    (fun _ => Ok (gemini_response (JStr json_a1)))
    (questions_body (JStr (u "dev")) (JStr (u "2 years")) (JStr (u "js")) (JNum false 0 0))
    (mkState ∅ [])
  = (Ok missing_fields_response, mkState ∅ []).
Proof. reflexivity. Qed.

(** C8 (as amended): the four fields are checked for truthiness only.
    When all four are truthy, whatever their types, the handler builds the
    prompt from them (and calls the provider when the prompt is built);
    when one is falsy ([undefined], [null], [false], [""], or a number
    equal to 0) it answers 400 without any external call.  A number is
    truthy exactly when it is not 0. *)
Theorem generateInterviewQuestions_truthiness_gate
    (qap : jsval -> jsval -> jsval -> jsval -> outcome jsval) (gen : jsval -> outcome jsval)
    (reqbody role experience topicsToFocus numberOfQuestions : jsval) (st : state)
    (G1 : get reqbody (u "role") = Ok role) (G2 : get reqbody (u "experience") = Ok experience)
    (G3 : get reqbody (u "topicsToFocus") = Ok topicsToFocus)
    (G4 : get reqbody (u "numberOfQuestions") = Ok numberOfQuestions) :
  (all_present role experience topicsToFocus numberOfQuestions = true ->
   snd (generateInterviewQuestions qap gen reqbody st)
   = mkState (st_db st)
       (st_trace st ++ EvPrompt [role; experience; topicsToFocus; numberOfQuestions]
          :: match qap role experience topicsToFocus numberOfQuestions with
             | Ok prompt => [EvGenerate (gen_request prompt)]
             | Throw _ => []
             end))
  /\ (all_present role experience topicsToFocus numberOfQuestions = false ->
      generateInterviewQuestions qap gen reqbody st = (Ok missing_fields_response, st))
  /\ (forall (neg : bool) (m : N) (e : Z), truthy (JNum neg m e) = true <-> m <> 0%N).
Proof.
  split; [apply generateInterviewQuestions_accepts; assumption |].
  split; [apply generateInterviewQuestions_rejects; assumption |].
  intros neg m e. simpl. rewrite negb_true_iff, N.eqb_neq. reflexivity.
Qed.

Lemma generateInterviewQuestions_truthiness_gate_witness :
  snd (generateInterviewQuestions (fun _ _ _ _ => Ok (JStr (u "prompt")))
         (fun _ => Ok (gemini_response (JStr json_a1)))
         (questions_body (JStr (u "dev")) (JBool true) (JArr []) (JNum true 3 0))
         (mkState ∅ []))
  = mkState ∅ [EvPrompt [JStr (u "dev"); JBool true; JArr []; JNum true 3 0];
               EvGenerate (gen_request (JStr (u "prompt")))].
Proof.
  destruct (generateInterviewQuestions_truthiness_gate (fun _ _ _ _ => Ok (JStr (u "prompt")))
              (fun _ => Ok (gemini_response (JStr json_a1)))
              (questions_body (JStr (u "dev")) (JBool true) (JArr []) (JNum true 3 0))
              (JStr (u "dev")) (JBool true) (JArr []) (JNum true 3 0) (mkState ∅ [])
              eq_refl eq_refl eq_refl eq_refl) as [Hacc _].
  rewrite Hacc by reflexivity. reflexivity.
Defined.

(** ** Order of the steps of generateConceptExplanation *)

Definition failed_explanation_response (msg : jsstr) : response :=
  mkResponse 500 (JObj [(u "message", JStr (u "Failed to generate explanation"));
                        (u "error", JStr msg)]).

Definition no_text_response : response :=
  mkResponse 500 (JObj [(u "message", JStr (u "No response from Gemini"))]).


(** The state once the prompt is built and the provider called. *)
Definition after_provider (st : state) (qtext prompt : jsval) : state :=
  log (log st (EvPrompt [qtext])) (EvGenerate (gen_request prompt)).

Ltac handler_simpl :=
  cbn -[u truthy tryParseJSON getGeminiText derive_explanation newAnswer lookup insert SEP].

(** C10: past the field check, the provider call, the extraction of the
    text and the JSON recovery all happen before the question lookup: a
    provider rejection, a missing text or a recovery error ends the
    request with 500 and no lookup, whatever the [questionId]; otherwise
    the next external call is [Question.findById(questionId)]. *)
Theorem generateConceptExplanation_provider_before_lookup
    (cep gen : jsval -> outcome jsval) (cast : jsval -> option jsstr)
    (questionId qtext prompt : jsval) (st : state)
    (Hid : truthy questionId = true) (Hqu : truthy qtext = true)
    (Hp : cep qtext = Ok prompt) :
  (forall m, gen (gen_request prompt) = Throw m ->
     generateConceptExplanation cep gen cast (explanation_body questionId qtext) st
     = (Ok (failed_explanation_response m), after_provider st qtext prompt))
  /\ (forall response, gen (gen_request prompt) = Ok response ->
        truthy (extracted response) = false ->
        generateConceptExplanation cep gen cast (explanation_body questionId qtext) st
        = (Ok no_text_response, after_provider st qtext prompt))
  /\ (forall response m, gen (gen_request prompt) = Ok response ->
        truthy (extracted response) = true ->
        tryParseJSON (extracted response) = Throw m ->
        generateConceptExplanation cep gen cast (explanation_body questionId qtext) st
        = (Ok (failed_explanation_response m), after_provider st qtext prompt))
  /\ (forall response r, gen (gen_request prompt) = Ok response ->
        truthy (extracted response) = true ->
        tryParseJSON (extracted response) = Ok r ->
        exists rest,
          st_trace (snd (generateConceptExplanation cep gen cast
                           (explanation_body questionId qtext) st))
          = st_trace (after_provider st qtext prompt) ++ EvFindById questionId :: rest).
Proof.
  unfold generateConceptExplanation.
  destruct (explanation_body_get questionId qtext) as [G1 G2]. rewrite G1, G2.
  run_handler_db. rewrite Hid, Hqu. handler_simpl. rewrite Hp. handler_simpl.
  split; [| split; [| split]].
  - intros m Hg. rewrite Hg. reflexivity.
  - intros response Hg Ht. rewrite Hg. handler_simpl.
    rewrite getGeminiText_extracted. handler_simpl. rewrite Ht. reflexivity.
  - intros response m Hg Ht Hr. rewrite Hg. handler_simpl.
    rewrite getGeminiText_extracted. handler_simpl. rewrite Ht. handler_simpl.
    rewrite Hr. reflexivity.
  - intros response r Hg Ht Hr. rewrite Hg. handler_simpl.
    rewrite getGeminiText_extracted. handler_simpl. rewrite Ht. handler_simpl.
    rewrite Hr. handler_simpl.
    destruct (derive_explanation_ok (pr_json r) (extracted response)) as [ex Hex].
    rewrite Hex. handler_simpl.
    destruct (cast questionId) as [k|]; handler_simpl.
    + destruct (st_db st !! k) as [q|]; handler_simpl.
      * destruct (st_db st !! k); handler_simpl;
          eexists; unfold after_provider, log; simpl; rewrite <- ?app_assoc; reflexivity.
      * exists []. unfold after_provider, log. simpl. rewrite <- ?app_assoc. reflexivity.
    + exists []. unfold after_provider, log. simpl. rewrite <- ?app_assoc. reflexivity.
Qed.

Lemma generateConceptExplanation_provider_before_lookup_witness :
  generateConceptExplanation (fun _ => Ok (JStr (u "prompt"))) (fun _ => Throw (u "network down"))
    demo_cast (explanation_body (JStr (u "no-such-id")) (JStr (u "What is a closure?")))
    (mkState demo_db [])
  = (Ok (failed_explanation_response (u "network down")),
     after_provider (mkState demo_db []) (JStr (u "What is a closure?")) (JStr (u "prompt"))).
Proof.
  destruct (generateConceptExplanation_provider_before_lookup
              (fun _ => Ok (JStr (u "prompt"))) (fun _ => Throw (u "network down")) demo_cast
              (JStr (u "no-such-id")) (JStr (u "What is a closure?")) (JStr (u "prompt"))
              (mkState demo_db []) eq_refl eq_refl eq_refl) as [H _].
  apply H. reflexivity.
Defined.

(** ** A questionId that matches no question *)





(** * Further properties of the controller *)

(** ** Runs of generateConceptExplanation *)

(** A run that reaches an existing question: one update, and the
    updated record in the response. *)
Lemma gce_success_run
    (cep gen : jsval -> outcome jsval) (cast : jsval -> option jsstr)
    (questionId qtext prompt response explanation : jsval)
    (k : jsstr) (q : question) (db : store) (tr : list event)
    (Hid : truthy questionId = true) (Hqu : truthy qtext = true)
    (Hp : cep qtext = Ok prompt) (Hg : gen (gen_request prompt) = Ok response)
    (Ht : truthy (extracted response) = true)
    (He : explanation_of (extracted response) = Ok explanation)
    (Hk : cast questionId = Some k) (Hq : db !! k = Some q) :
  generateConceptExplanation cep gen cast (explanation_body questionId qtext) (mkState db tr)
  = (Ok (mkResponse 200 (JObj [(u "question",
           question_to_js k (mkQuestion (q_question q) (JStr (newAnswer q explanation))))])),
     mkState (<[k := mkQuestion (q_question q) (JStr (newAnswer q explanation))]> db)
       (tr ++ [EvPrompt [qtext]; EvGenerate (gen_request prompt); EvFindById questionId;
               EvFindByIdAndUpdate questionId
                 (JObj [(u "answer", JStr (newAnswer q explanation))])])).
Proof.
  unfold explanation_of in He.
  destruct (tryParseJSON (extracted response)) as [r|m] eqn:Hr; [| discriminate].
  cbn [obind] in He.
  unfold generateConceptExplanation.
  destruct (explanation_body_get questionId qtext) as [G1 G2]. rewrite G1, G2.
  run_handler_db. rewrite Hid, Hqu. handler_simpl.
  rewrite Hp, Hg, getGeminiText_extracted, Ht, Hr, He, Hk. handler_simpl.
  rewrite Hq. handler_simpl. rewrite Hq. handler_simpl.
  rewrite <- !app_assoc. reflexivity.
Qed.

(** Whatever happens, the store after a run is the store before, or the
    store with one existing question's answer replaced by [newAnswer]. *)
Lemma gce_db_shape (cep gen : jsval -> outcome jsval) (cast : jsval -> option jsstr)
    (reqbody : jsval) (st : state) :
  st_db (snd (generateConceptExplanation cep gen cast reqbody st)) = st_db st
  \/ exists k q ex, st_db st !! k = Some q
       /\ st_db (snd (generateConceptExplanation cep gen cast reqbody st))
          = <[k := mkQuestion (q_question q) (JStr (newAnswer q ex))]> (st_db st).
Proof.
  unfold generateConceptExplanation.
  run_handler_db.
  destruct (get reqbody (u "questionId")) as [qid|m]; handler_simpl; [| left; reflexivity].
  destruct (get reqbody (u "question")) as [qtext|m]; handler_simpl; [| left; reflexivity].
  destruct (negb (truthy qid) || negb (truthy qtext)); handler_simpl; [left; reflexivity |].
  destruct (cep qtext) as [prompt|m]; handler_simpl; [| left; reflexivity].
  destruct (gen (gen_request prompt)) as [resp|m]; handler_simpl; [| left; reflexivity].
  rewrite getGeminiText_extracted. handler_simpl.
  destruct (truthy (extracted resp)); handler_simpl; [| left; reflexivity].
  destruct (tryParseJSON (extracted resp)) as [r|m]; handler_simpl; [| left; reflexivity].
  destruct (derive_explanation_ok (pr_json r) (extracted resp)) as [ex Hex].
  rewrite Hex. handler_simpl.
  destruct (cast qid) as [k|]; handler_simpl; [| left; reflexivity].
  destruct (st_db st !! k) as [q|] eqn:Eq; handler_simpl; [| left; reflexivity].
  rewrite Eq. handler_simpl. right. exists k, q, ex. split; [exact Eq | reflexivity].
Qed.

(** ** generateInterviewQuestions and the database *)

Definition is_db_event (ev : event) : bool :=
  match ev with EvFindById _ | EvFindByIdAndUpdate _ _ => true | _ => false end.

Ltac giq_close :=
  split; [reflexivity
         | first [ exists []; split; [symmetry; apply app_nil_r | constructor]
                 | eexists; split; [rewrite <- ?app_assoc; reflexivity | repeat constructor]]].

(** [generateInterviewQuestions] never reads or writes the question
    store: on every path the store is left as it was and the calls it
    makes are only the prompt builder and the provider. *)
Theorem generateInterviewQuestions_no_database_access
    (qap : jsval -> jsval -> jsval -> jsval -> outcome jsval)
    (gen : jsval -> outcome jsval) (reqbody : jsval) (st : state) :
  st_db (snd (generateInterviewQuestions qap gen reqbody st)) = st_db st
  /\ exists evs, st_trace (snd (generateInterviewQuestions qap gen reqbody st)) = st_trace st ++ evs
       /\ Forall (fun ev => is_db_event ev = false) evs.
Proof.
  destruct st as [db tr].
  unfold generateInterviewQuestions. run_handler_db.
  destruct (get reqbody (u "role")) as [role|m]; handler_simpl; [| giq_close].
  destruct (get reqbody (u "experience")) as [experience|m]; handler_simpl; [| giq_close].
  destruct (get reqbody (u "topicsToFocus")) as [topics|m]; handler_simpl; [| giq_close].
  destruct (get reqbody (u "numberOfQuestions")) as [n|m]; handler_simpl; [| giq_close].
  destruct (_ || _); handler_simpl; [giq_close |].
  destruct (qap role experience topics n) as [prompt|m]; handler_simpl; [| giq_close].
  destruct (gen (gen_request prompt)) as [resp|m]; handler_simpl; [| giq_close].
  rewrite getGeminiText_extracted. handler_simpl.
  destruct (truthy (extracted resp)); handler_simpl; [| giq_close].
  destruct (tryParseJSON (extracted resp)) as [r|m]; handler_simpl; [| giq_close].
  destruct (truthy (pr_json r)); handler_simpl; giq_close.
Qed.

(** ** generateInterviewQuestions on a parsed text *)

(** When the provider text parses as JSON at the first attempt, the
    handler has no shape check: any truthy value (a number, a string, an
    object) is sent back as [questions] with 200, and a falsy one ([0],
    [false], an empty string, [null]) is reported as
    "Gemini returned invalid JSON" with [error: null]. *)
Theorem generateInterviewQuestions_parsed_value
    (qap : jsval -> jsval -> jsval -> jsval -> outcome jsval) (gen : jsval -> outcome jsval)
    (role experience topicsToFocus numberOfQuestions prompt response : jsval)
    (s : jsstr) (v : jsval) (st : state)
    (Hr : truthy role = true) (He : truthy experience = true)
    (Ht : truthy topicsToFocus = true) (Hn : truthy numberOfQuestions = true)
    (Hq : qap role experience topicsToFocus numberOfQuestions = Ok prompt)
    (Hg : gen (gen_request prompt) = Ok response)
    (Hx : extracted response = JStr s)
    (Hv : JSON_parse_str s = Ok v) :
  fst (generateInterviewQuestions qap gen
         (questions_body role experience topicsToFocus numberOfQuestions) st)
  = Ok (if truthy v
        then mkResponse 200 (JObj [(u "questions", v)])
        else mkResponse 500 (JObj [(u "message", JStr (u "Gemini returned invalid JSON"));
                                   (u "raw", JStr s); (u "error", JNull)])).
Proof.
  assert (Hs : truthy (JStr s) = true) by (apply (extracted_truthy response); congruence).
  assert (Hp : tryParseJSON (JStr s) = Ok (mkParseResult v JNull)).
  { unfold tryParseJSON. rewrite JSON_parse_JStr, Hv. reflexivity. }
  unfold generateInterviewQuestions.
  destruct (questions_body_get role experience topicsToFocus numberOfQuestions)
    as (G1 & G2 & G3 & G4).
  rewrite G1, G2, G3, G4. run_handler.
  rewrite Hr, He, Ht, Hn. cbn -[u truthy tryParseJSON getGeminiText].
  rewrite Hq, Hg, getGeminiText_extracted, Hx, Hs, Hp. cbn -[u truthy].
  destruct (truthy v); reflexivity.
Qed.

Lemma generateInterviewQuestions_parsed_value_witness :
  JSON_parse_str (u "null") = Ok JNull
  /\ fst (generateInterviewQuestions (fun _ _ _ _ => Ok (JStr (u "prompt")))
            (fun _ => Ok (gemini_response (JStr (u "null"))))
            (questions_body (JStr (u "dev")) (JStr (u "2")) (JStr (u "js")) (JNum false 5 0))
            (mkState ∅ []))
     = Ok (mkResponse 500 (JObj [(u "message", JStr (u "Gemini returned invalid JSON"));
                                 (u "raw", JStr (u "null")); (u "error", JNull)])).
Proof.
  split; [vm_compute; reflexivity |].
  apply (generateInterviewQuestions_parsed_value _ _ (JStr (u "dev")) (JStr (u "2"))
           (JStr (u "js")) (JNum false 5 0) (JStr (u "prompt"))
           (gemini_response (JStr (u "null"))) (u "null") JNull);
    vm_compute; reflexivity.
Defined.

(** ** Request without a body *)

Definition demo_state : state := mkState demo_db [].

(** With no parsed body ([req.body] undefined or null) the destructuring
    throws before anything else: both handlers answer 500 with their own
    message, call nothing and leave the state as it was. *)
Theorem handlers_nullish_body
    (qap : jsval -> jsval -> jsval -> jsval -> outcome jsval) (cep gen : jsval -> outcome jsval)
    (cast : jsval -> option jsstr) (reqbody : jsval) (st : state)
    (Hb : reqbody = JUndef \/ reqbody = JNull) :
  (exists msg, generateInterviewQuestions qap gen reqbody st
     = (Ok (mkResponse 500 (JObj [(u "message", JStr (u "Failed to generate questions"));
                                  (u "error", JStr msg)])), st))
  /\ (exists msg, generateConceptExplanation cep gen cast reqbody st
     = (Ok (mkResponse 500 (JObj [(u "message", JStr (u "Failed to generate explanation"));
                                  (u "error", JStr msg)])), st)).
Proof. destruct Hb; subst; split; eexists; reflexivity. Qed.

Lemma handlers_nullish_body_witness :
  (exists msg, generateInterviewQuestions (fun _ _ _ _ => Ok (JStr (u "prompt")))
                 (fun _ => Ok JNull) JUndef demo_state
     = (Ok (mkResponse 500 (JObj [(u "message", JStr (u "Failed to generate questions"));
                                  (u "error", JStr msg)])), demo_state))
  /\ (exists msg, generateConceptExplanation (fun _ => Ok (JStr (u "prompt")))
                    (fun _ => Ok JNull) demo_cast JUndef demo_state
     = (Ok (mkResponse 500 (JObj [(u "message", JStr (u "Failed to generate explanation"));
                                  (u "error", JStr msg)])), demo_state)).
Proof.
  apply (handlers_nullish_body (fun _ _ _ _ => Ok (JStr (u "prompt")))
           (fun _ => Ok (JStr (u "prompt"))) (fun _ => Ok JNull) demo_cast JUndef demo_state).
  left; reflexivity.
Defined.

(** ** generateConceptExplanation: field check, store and response *)

(** A falsy [questionId] or [question] is answered with 400 before any
    call: the state (store and trace) is left as it was. *)
Theorem generateConceptExplanation_missing_field_400
    (cep gen : jsval -> outcome jsval) (cast : jsval -> option jsstr)
    (questionId qtext : jsval) (st : state)
    (Hm : truthy questionId = false \/ truthy qtext = false) :
  generateConceptExplanation cep gen cast (explanation_body questionId qtext) st
  = (Ok missing_fields_response, st).
Proof.
  unfold generateConceptExplanation.
  destruct (explanation_body_get questionId qtext) as [G1 G2]. rewrite G1, G2.
  run_handler_db.
  destruct Hm as [H | H]; rewrite H; [reflexivity |].
  destruct (truthy questionId); reflexivity.
Qed.

Lemma generateConceptExplanation_missing_field_400_witness :
  generateConceptExplanation (fun _ => Ok (JStr (u "prompt")))
    (fun _ => Ok (gemini_response (JStr json_expl_B))) demo_cast
    (explanation_body (JStr (u "q1")) (JStr [])) demo_state
  = (Ok missing_fields_response, demo_state).
Proof.
  apply generateConceptExplanation_missing_field_400. right; reflexivity.
Defined.

(** The answer an explanation is appended to: [existingQuestion.answer || ""]. *)
Definition prior_answer (q : question) : jsstr :=
  to_js_string (if truthy (q_answer q) then q_answer q else JStr []).

(** Whatever the request and the outside world do, a run of
    [generateConceptExplanation] changes at most one record of the store;
    no record is created or removed, a changed record keeps its question,
    and its new answer is a string extending the old one: explanations are
    only ever appended. *)
Theorem generateConceptExplanation_changes_one_answer
    (cep gen : jsval -> outcome jsval) (cast : jsval -> option jsstr)
    (reqbody : jsval) (st : state) :
  let db' := st_db (snd (generateConceptExplanation cep gen cast reqbody st)) in
  (forall k, db' !! k = st_db st !! k
             \/ exists q rest, st_db st !! k = Some q
                  /\ db' !! k = Some (mkQuestion (q_question q) (JStr (prior_answer q ++ rest))))
  /\ (forall k1 k2, db' !! k1 <> st_db st !! k1 -> db' !! k2 <> st_db st !! k2 -> k1 = k2).
Proof.
  intros db'. subst db'.
  destruct (gce_db_shape cep gen cast reqbody st) as [E | (k & q & ex & Hq & E)];
    rewrite E.
  - split; [left; reflexivity | intros k1 k2 H; congruence].
  - split.
    + intros k'. destruct (decide (k = k')) as [<- | Hne].
      * right. exists q, (SEP ++ to_js_string ex). split; [exact Hq |].
        rewrite lookup_insert_eq. reflexivity.
      * left. apply lookup_insert_ne. exact Hne.
    + intros k1 k2 H1 H2.
      destruct (decide (k = k1)) as [<- | N1];
        [| rewrite lookup_insert_ne in H1 by exact N1; congruence].
      destruct (decide (k = k2)) as [<- | N2];
        [reflexivity | rewrite lookup_insert_ne in H2 by exact N2; congruence].
Qed.

(** When the question exists and the provider's text yields an
    explanation, the handler makes exactly one update, with the appended
    answer, and returns the updated record ([{ new: true }]) with 200. *)
Theorem generateConceptExplanation_returns_updated
    (cep gen : jsval -> outcome jsval) (cast : jsval -> option jsstr)
    (questionId qtext prompt response explanation : jsval)
    (k : jsstr) (q : question) (db : store) (tr : list event)
    (Hid : truthy questionId = true) (Hqu : truthy qtext = true)
    (Hp : cep qtext = Ok prompt) (Hg : gen (gen_request prompt) = Ok response)
    (Ht : truthy (extracted response) = true)
    (He : explanation_of (extracted response) = Ok explanation)
    (Hk : cast questionId = Some k) (Hq : db !! k = Some q) :
  generateConceptExplanation cep gen cast (explanation_body questionId qtext) (mkState db tr)
  = (Ok (mkResponse 200 (JObj [(u "question",
           JObj [(u "_id", JStr k); (u "question", q_question q);
                 (u "answer", JStr (prior_answer q ++ SEP ++ to_js_string explanation))])])),
     mkState (<[k := mkQuestion (q_question q)
                       (JStr (prior_answer q ++ SEP ++ to_js_string explanation))]> db)
       (tr ++ [EvPrompt [qtext]; EvGenerate (gen_request prompt); EvFindById questionId;
               EvFindByIdAndUpdate questionId
                 (JObj [(u "answer", JStr (prior_answer q ++ SEP ++ to_js_string explanation))])])).
Proof.
  rewrite (gce_success_run cep gen cast questionId qtext prompt response explanation k q db tr
             Hid Hqu Hp Hg Ht He Hk Hq).
  reflexivity.
Qed.

Lemma generateConceptExplanation_returns_updated_witness :
  generateConceptExplanation (fun _ => Ok (JStr (u "prompt")))
    (fun _ => Ok (gemini_response (JStr json_expl_B))) demo_cast
    (explanation_body (JStr (u "q1")) (JStr (u "What is a closure?"))) demo_state
  = (Ok (mkResponse 200 (JObj [(u "question",
           JObj [(u "_id", JStr (u "q1")); (u "question", JStr (u "What is a closure?"));
                 (u "answer", JStr (u "A" ++ SEP ++ u "B"))])])),
     mkState (<[u "q1" := mkQuestion (JStr (u "What is a closure?")) (JStr (u "A" ++ SEP ++ u "B"))]>
                demo_db)
       [EvPrompt [JStr (u "What is a closure?")]; EvGenerate (gen_request (JStr (u "prompt")));
        EvFindById (JStr (u "q1"));
        EvFindByIdAndUpdate (JStr (u "q1")) (JObj [(u "answer", JStr (u "A" ++ SEP ++ u "B"))])]).
Proof.
  apply (generateConceptExplanation_returns_updated _ _ _ (JStr (u "q1"))
           (JStr (u "What is a closure?")) (JStr (u "prompt"))
           (gemini_response (JStr json_expl_B)) (JStr (u "B")) (u "q1")
           (mkQuestion (JStr (u "What is a closure?")) (JStr (u "A"))) demo_db []);
    vm_compute; reflexivity.
Defined.

(** An id that does not cast to an ObjectId is only noticed at the
    lookup, after the provider call: the cast error is answered with 500,
    the store is unchanged and no update is attempted. *)
Theorem generateConceptExplanation_invalid_id
    (cep gen : jsval -> outcome jsval) (cast : jsval -> option jsstr)
    (questionId qtext prompt response : jsval) (r : parse_result) (db : store) (tr : list event)
    (Hid : truthy questionId = true) (Hqu : truthy qtext = true)
    (Hp : cep qtext = Ok prompt) (Hg : gen (gen_request prompt) = Ok response)
    (Ht : truthy (extracted response) = true)
    (Hr : tryParseJSON (extracted response) = Ok r)
    (Hk : cast questionId = None) :
  generateConceptExplanation cep gen cast (explanation_body questionId qtext) (mkState db tr)
  = (Ok (failed_explanation_response (cast_error questionId)),
     mkState db (tr ++ [EvPrompt [qtext]; EvGenerate (gen_request prompt);
                        EvFindById questionId])).
Proof.
  unfold generateConceptExplanation.
  destruct (explanation_body_get questionId qtext) as [G1 G2]. rewrite G1, G2.
  run_handler_db. rewrite Hid, Hqu. handler_simpl.
  rewrite Hp, Hg, getGeminiText_extracted, Ht, Hr. handler_simpl.
  destruct (derive_explanation_ok (pr_json r) (extracted response)) as [ex Hex].
  rewrite Hex. handler_simpl. rewrite Hk. handler_simpl.
  rewrite <- !app_assoc. reflexivity.
Qed.

Lemma generateConceptExplanation_invalid_id_witness :
  fst (generateConceptExplanation (fun _ => Ok (JStr (u "prompt")))
         (fun _ => Ok (gemini_response (JStr json_expl_B))) demo_cast
         (explanation_body (JNum false 42 0) (JStr (u "What is a closure?"))) demo_state)
  = Ok (failed_explanation_response (u "Cast to ObjectId failed for value 42")).
Proof.
  rewrite (generateConceptExplanation_invalid_id _ _ demo_cast (JNum false 42 0)
             (JStr (u "What is a closure?")) (JStr (u "prompt"))
             (gemini_response (JStr json_expl_B))
             (mkParseResult (JObj [(u "explanation", JStr (u "B"))]) JNull) demo_db []);
    vm_compute; reflexivity.
Defined.

(** ** A provider text that is not a string *)

(** When the provider puts an object where the text is expected,
    [String(text)] is ["[object Object]"], which is not JSON, and the
    fallback then calls [text.replace] on the object: [tryParseJSON]
    throws a TypeError, and [generateInterviewQuestions] answers 500
    "Failed to generate questions" instead of reporting invalid JSON. *)
Theorem generateInterviewQuestions_object_text
    (qap : jsval -> jsval -> jsval -> jsval -> outcome jsval) (gen : jsval -> outcome jsval)
    (role experience topicsToFocus numberOfQuestions prompt response : jsval)
    (kvs : list (jsstr * jsval)) (st : state)
    (Hr : truthy role = true) (He : truthy experience = true)
    (Ht : truthy topicsToFocus = true) (Hn : truthy numberOfQuestions = true)
    (Hq : qap role experience topicsToFocus numberOfQuestions = Ok prompt)
    (Hg : gen (gen_request prompt) = Ok response)
    (Hx : extracted response = JObj kvs) :
  tryParseJSON (JObj kvs) = Throw (u "text.replace is not a function")
  /\ fst (generateInterviewQuestions qap gen
            (questions_body role experience topicsToFocus numberOfQuestions) st)
     = Ok (mkResponse 500 (JObj [(u "message", JStr (u "Failed to generate questions"));
                                 (u "error", JStr (u "text.replace is not a function"))])).
Proof.
  assert (Hp : tryParseJSON (JObj kvs) = Throw (u "text.replace is not a function"))
    by (vm_compute; reflexivity).
  split; [exact Hp |].
  unfold generateInterviewQuestions.
  destruct (questions_body_get role experience topicsToFocus numberOfQuestions)
    as (G1 & G2 & G3 & G4).
  rewrite G1, G2, G3, G4. run_handler.
  rewrite Hr, He, Ht, Hn. cbn -[u truthy tryParseJSON getGeminiText].
  rewrite Hq, Hg, getGeminiText_extracted, Hx, Hp. reflexivity.
Qed.

Lemma generateInterviewQuestions_object_text_witness :
  tryParseJSON (JObj [(u "questions", JArr [])]) = Throw (u "text.replace is not a function")
  /\ fst (generateInterviewQuestions (fun _ _ _ _ => Ok (JStr (u "prompt")))
            (fun _ => Ok (gemini_response (JObj [(u "questions", JArr [])])))
            (questions_body (JStr (u "dev")) (JStr (u "2")) (JStr (u "js")) (JNum false 5 0))
            (mkState ∅ []))
     = Ok (mkResponse 500 (JObj [(u "message", JStr (u "Failed to generate questions"));
                                 (u "error", JStr (u "text.replace is not a function"))])).
Proof.
  apply (generateInterviewQuestions_object_text _ _ (JStr (u "dev")) (JStr (u "2"))
           (JStr (u "js")) (JNum false 5 0) (JStr (u "prompt"))
           (gemini_response (JObj [(u "questions", JArr [])])) [(u "questions", JArr [])]);
    vm_compute; reflexivity.
Defined.

(** ** getGeminiText reads the first candidate and its first part only *)

Definition response_with_candidates (cs : list jsval) : jsval :=
  JObj [(u "candidates", JArr cs)].

Definition candidate_with_parts (ps : list jsval) : jsval :=
  JObj [(u "content", JObj [(u "parts", JArr ps)])].

(** Later candidates, and later parts of the first candidate, are never
    looked at: the text of a response is the text of its first part of
    its first candidate, even when that one is missing and a later one is
    present. *)
Theorem getGeminiText_first_candidate_first_part (c : jsval) (cs : list jsval)
    (p : jsval) (ps : list jsval) :
  getGeminiText (response_with_candidates (c :: cs))
  = getGeminiText (response_with_candidates [c])
  /\ getGeminiText (response_with_candidates [candidate_with_parts (p :: ps)])
     = getGeminiText (response_with_candidates [candidate_with_parts [p]]).
Proof. split; reflexivity. Qed.

(** ** Successive explanations accumulate *)

Lemma newAnswer_truthy (q : question) (ex : jsval) : truthy (JStr (newAnswer q ex)) = true.
Proof.
  unfold newAnswer, truthy. destruct (to_js_string _); reflexivity.
Qed.

Lemma prior_answer_string (q : question) (a : jsstr) : q_answer q = JStr a -> prior_answer q = a.
Proof.
  unfold prior_answer. intros ->. destruct a; reflexivity.
Qed.

(** Two explanation requests for the same question, served one after the
    other (with any prompt builders and providers), leave its answer as
    the original answer followed by both explanations, in order, each
    after the separator. *)
Theorem generateConceptExplanation_twice_accumulates
    (cep1 gen1 cep2 gen2 : jsval -> outcome jsval) (cast : jsval -> option jsstr)
    (questionId qtext prompt1 response1 ex1 prompt2 response2 ex2 : jsval)
    (k : jsstr) (q : question) (a : jsstr) (db : store) (tr : list event)
    (Hid : truthy questionId = true) (Hqu : truthy qtext = true)
    (Hk : cast questionId = Some k) (Hq : db !! k = Some q) (Ha : q_answer q = JStr a)
    (Hp1 : cep1 qtext = Ok prompt1) (Hg1 : gen1 (gen_request prompt1) = Ok response1)
    (Ht1 : truthy (extracted response1) = true)
    (He1 : explanation_of (extracted response1) = Ok ex1)
    (Hp2 : cep2 qtext = Ok prompt2) (Hg2 : gen2 (gen_request prompt2) = Ok response2)
    (Ht2 : truthy (extracted response2) = true)
    (He2 : explanation_of (extracted response2) = Ok ex2) :
  let st1 := snd (generateConceptExplanation cep1 gen1 cast (explanation_body questionId qtext)
                    (mkState db tr)) in
  let st2 := snd (generateConceptExplanation cep2 gen2 cast (explanation_body questionId qtext)
                    st1) in
  st_db st2 = <[k := mkQuestion (q_question q)
                        (JStr (a ++ SEP ++ to_js_string ex1 ++ SEP ++ to_js_string ex2))]> db.
Proof.
  intros st1 st2. subst st1 st2.
  rewrite (gce_success_run cep1 gen1 cast questionId qtext prompt1 response1 ex1 k q db tr
             Hid Hqu Hp1 Hg1 Ht1 He1 Hk Hq).
  cbn [snd].
  rewrite (gce_success_run cep2 gen2 cast questionId qtext prompt2 response2 ex2 k
             (mkQuestion (q_question q) (JStr (newAnswer q ex1))) _ _
             Hid Hqu Hp2 Hg2 Ht2 He2 Hk (lookup_insert_eq _ _ _)).
  cbn [snd st_db q_question].
  rewrite insert_insert_eq. f_equal. f_equal.
  unfold newAnswer at 1. cbn [q_answer]. rewrite newAnswer_truthy. cbn [to_js_string].
  unfold newAnswer. fold (prior_answer q). rewrite (prior_answer_string q a Ha).
  rewrite <- !app_assoc. reflexivity.
Qed.

Definition json_expl_C : jsstr :=
  u "{" ++ dq ++ u "explanation" ++ dq ++ u ":" ++ dq ++ u "C" ++ dq ++ u "}".

Lemma generateConceptExplanation_twice_accumulates_witness :
  st_db (snd (generateConceptExplanation (fun _ => Ok (JStr (u "prompt2")))
                (fun _ => Ok (gemini_response (JStr json_expl_C))) demo_cast
                (explanation_body (JStr (u "q1")) (JStr (u "What is a closure?")))
                (snd (generateConceptExplanation (fun _ => Ok (JStr (u "prompt1")))
                        (fun _ => Ok (gemini_response (JStr json_expl_B))) demo_cast
                        (explanation_body (JStr (u "q1")) (JStr (u "What is a closure?")))
                        demo_state))))
  = <[u "q1" := mkQuestion (JStr (u "What is a closure?"))
                  (JStr (u "A" ++ SEP ++ to_js_string (JStr (u "B"))
                         ++ SEP ++ to_js_string (JStr (u "C"))))]> demo_db.
Proof.
  apply (generateConceptExplanation_twice_accumulates _ _ _ _ demo_cast
           (JStr (u "q1")) (JStr (u "What is a closure?"))
           (JStr (u "prompt1")) (gemini_response (JStr json_expl_B)) (JStr (u "B"))
           (JStr (u "prompt2")) (gemini_response (JStr json_expl_C)) (JStr (u "C"))
           (u "q1") (mkQuestion (JStr (u "What is a closure?")) (JStr (u "A"))) (u "A"));
    vm_compute; reflexivity.
Defined.

(** ** An explanation that is not a string *)

(** The [explanation] field is taken as it is and put into the answer
    through a template literal: when the JSON recovered from the
    provider's text (at the first attempt or after removing a json
    fence) holds an object there, the stored answer gets
    ["[object Object]"] appended and the content of the object is lost. *)
Theorem generateConceptExplanation_object_explanation
    (cep gen : jsval -> outcome jsval) (cast : jsval -> option jsstr)
    (questionId qtext prompt response : jsval) (r : parse_result)
    (fields kvs : list (jsstr * jsval))
    (k : jsstr) (q : question) (db : store) (tr : list event)
    (Hid : truthy questionId = true) (Hqu : truthy qtext = true)
    (Hp : cep qtext = Ok prompt) (Hg : gen (gen_request prompt) = Ok response)
    (Ht : truthy (extracted response) = true)
    (Hr : tryParseJSON (extracted response) = Ok r) (Hj : pr_json r = JObj fields)
    (Hf : assoc_lookup (u "explanation") fields = JObj kvs)
    (Hk : cast questionId = Some k) (Hq : db !! k = Some q) :
  st_db (snd (generateConceptExplanation cep gen cast (explanation_body questionId qtext)
                (mkState db tr))) !! k
  = Some (mkQuestion (q_question q) (JStr (prior_answer q ++ SEP ++ u "[object Object]"))).
Proof.
  assert (He : explanation_of (extracted response) = Ok (JObj kvs)).
  { unfold explanation_of. rewrite Hr. cbn [obind]. rewrite Hj.
    unfold derive_explanation. cbn [optget get obind].
    rewrite Hf. reflexivity. }
  rewrite (gce_success_run cep gen cast questionId qtext prompt response (JObj kvs) k q db tr
             Hid Hqu Hp Hg Ht He Hk Hq).
  cbn [snd st_db]. rewrite lookup_insert_eq. reflexivity.
Qed.

Definition json_expl_object : jsstr :=
  u "{" ++ dq ++ u "explanation" ++ dq ++ u ":" ++ json_a1 ++ u "}".

(** The object explanation inside a json fence, as the provider often
    sends it. *)
Definition fenced_expl_object : jsstr :=
  fence ++ u "json" ++ NL ++ json_expl_object ++ NL ++ fence.

Lemma generateConceptExplanation_object_explanation_witness :
  st_db (snd (generateConceptExplanation (fun _ => Ok (JStr (u "prompt")))
                (fun _ => Ok (gemini_response (JStr fenced_expl_object))) demo_cast
                (explanation_body (JStr (u "q1")) (JStr (u "What is a closure?"))) demo_state))
    !! u "q1"
  = Some (mkQuestion (JStr (u "What is a closure?"))
            (JStr (prior_answer (mkQuestion (JStr (u "What is a closure?")) (JStr (u "A")))
                   ++ SEP ++ u "[object Object]"))).
Proof.
  apply (generateConceptExplanation_object_explanation _ _ demo_cast (JStr (u "q1"))
           (JStr (u "What is a closure?")) (JStr (u "prompt"))
           (gemini_response (JStr fenced_expl_object))
           (mkParseResult (JObj [(u "explanation", JObj [(u "a", JNum false 1 0)])]) JNull)
           [(u "explanation", JObj [(u "a", JNum false 1 0)])] [(u "a", JNum false 1 0)]
           (u "q1") (mkQuestion (JStr (u "What is a closure?")) (JStr (u "A"))) demo_db []);
    vm_compute; reflexivity.
Defined.
